(** * json_parser.py: extraction of URLs, tool executions and metadata
      from a JSON reasoning trace

    A shallow embedding of [json_parser.py] and proofs about it.

    Modelling conventions.
    - A Python [str] is a [string]: one [ascii] per code point, so the
      development covers text whose code points are below 256.  On that
      range [is_space], [lower] and the escaping done by [dumps] follow
      CPython.
    - A JSON number is a Python [int], an unbounded [Z]; floating point
      literals are outside the model.
    - A Python [dict] is an association list in insertion order whose keys
      are pairwise distinct ([wf_json]); [list] is [list].
    - Exceptions are values of [exn]; a computation that may raise returns
      [res]; a computation that also prints or touches the file system
      returns [py], which carries the trace of its effects.
    - What the operating system and the interpreter decide (whether a path
      exists, whether a read or a write fails, in which order a [set] is
      iterated) is read from a [runtime] record. *)

From Stdlib Require Import List String Ascii NArith ZArith Bool Arith Lia
  Permutation.
Import ListNotations.

Local Open Scope string_scope.
Local Open Scope nat_scope.
Local Open Scope list_scope.

(** ** Characters and strings *)

(** [str.isspace] on one code point, the class the regular expression
    engine uses for [\s] on [str] patterns. *)
Definition is_space (c : ascii) : bool :=
  let n := nat_of_ascii c in
  ((9 <=? n) && (n <=? 13)) || ((28 <=? n) && (n <=? 32))
  || (n =? 133) || (n =? 160).

Definition is_upper (c : ascii) : bool :=
  let n := nat_of_ascii c in
  ((65 <=? n) && (n <=? 90))
  || ((192 <=? n) && (n <=? 222) && negb (n =? 215)).

Definition lower_char (c : ascii) : ascii :=
  if is_upper c then ascii_of_nat (nat_of_ascii c + 32) else c.

(** [s.lower()] *)
Fixpoint lower (s : string) : string :=
  match s with
  | EmptyString => EmptyString
  | String c s' => String (lower_char c) (lower s')
  end.

(** [needle in hay] on two strings. *)
Fixpoint str_contains (needle hay : string) : bool :=
  String.prefix needle hay
  || match hay with
     | EmptyString => false
     | String _ hay' => str_contains needle hay'
     end.

(** [strip p s] is the rest of [s] after the literal [p], when [s] starts
    with it. *)
Fixpoint strip (p s : string) : option string :=
  match p with
  | EmptyString => Some s
  | String a p' =>
      match s with
      | EmptyString => None
      | String b s' => if Ascii.eqb a b then strip p' s' else None
      end
  end.

(** The longest prefix of non-whitespace characters, and what follows. *)
Fixpoint span_nonspace (s : string) : string * string :=
  match s with
  | EmptyString => (EmptyString, EmptyString)
  | String c s' =>
      if is_space c then (EmptyString, s)
      else let (run, rest) := span_nonspace s' in (String c run, rest)
  end.

(** ** JSON values, as [json.load] produces them *)

Unset Elimination Schemes.
Inductive json : Type :=
| JNull
| JBool (b : bool)
| JInt (n : Z)
| JStr (s : string)
| JList (items : list json)
| JDict (fields : list (string * json)).
Set Elimination Schemes.

(** Induction over a document: the hypotheses for a list and for a dict
    speak of every item and of every field value. *)
Fixpoint json_ind (P : json -> Prop)
    (HNull : P JNull) (HBool : forall b, P (JBool b))
    (HInt : forall n, P (JInt n)) (HStr : forall s, P (JStr s))
    (HList : forall l, Forall P l -> P (JList l))
    (HDict : forall f, Forall (fun kv => P (snd kv)) f -> P (JDict f))
    (v : json) {struct v} : P v :=
  let rec := json_ind P HNull HBool HInt HStr HList HDict in
  match v with
  | JNull => HNull
  | JBool b => HBool b
  | JInt n => HInt n
  | JStr s => HStr s
  | JList l =>
      HList l ((fix items (l : list json) : Forall P l :=
                  match l with
                  | [] => Forall_nil P
                  | x :: r => Forall_cons x (rec x) (items r)
                  end) l)
  | JDict f =>
      HDict f ((fix flds (f : list (string * json))
                  : Forall (fun kv => P (snd kv)) f :=
                  match f with
                  | [] => Forall_nil _
                  | kv :: r => Forall_cons kv (rec (snd kv)) (flds r)
                  end) f)
  end.

(** [d.get(key)] on the association list of a [dict]. *)
Fixpoint lookup (key : string) (fields : list (string * json)) : option json :=
  match fields with
  | [] => None
  | (k, v) :: rest => if String.eqb key k then Some v else lookup key rest
  end.

Definition has_key (key : string) (fields : list (string * json)) : bool :=
  match lookup key fields with Some _ => true | None => false end.

(** Truth value of an object, as [not x] and [if x:] compute it. *)
Definition truthy (v : json) : bool :=
  match v with
  | JNull => false
  | JBool b => b
  | JInt n => negb (Z.eqb n 0)
  | JStr s => negb (String.eqb s "")
  | JList l => match l with [] => false | _ => true end
  | JDict f => match f with [] => false | _ => true end
  end.

(** ** Exceptions and effects *)

Inductive exn : Type :=
| AttributeError
| TypeError
| KeyError
| ValueError (msg : string)
| OSError (msg : string).

Inductive res (A : Type) : Type :=
| Ok (a : A)
| Raise (e : exn).
Arguments Ok {A} a.
Arguments Raise {A} e.

Inductive event : Type :=
| Print (line : string)
| MakeDirs (path : string)
| SaveJson (path : string) (data : json)
| SaveCsv (path : string) (headers : list string) (rows : list json).

Definition py (A : Type) : Type := (list event * res A)%type.

Definition ret {A} (a : A) : py A := ([], Ok a).
Definition raise {A} (e : exn) : py A := ([], Raise e).
Definition emit (ev : event) : py unit := ([ev], Ok tt).
Definition lift {A} (r : res A) : py A := ([], r).

Definition bind {A B} (m : py A) (f : A -> py B) : py B :=
  match m with
  | (t, Raise e) => (t, Raise e)
  | (t, Ok a) => let (t', r) := f a in (t ++ t', r)
  end.

Notation "x <- m ;; k" := (bind m (fun x => k))
  (at level 61, m at next level, right associativity).
Notation "m ;;; k" := (bind m (fun _ => k))
  (at level 61, right associativity).

Definition rbind {A B} (r : res A) (f : A -> res B) : res B :=
  match r with
  | Ok a => f a
  | Raise e => Raise e
  end.

(** What the run reads from its environment. *)
Inductive loaded : Type :=
| LoadError (msg : string)
| Loaded (doc : json).

(** [makedirs_error] is the exception that [os.makedirs] raises on a
    path, if it raises one: an [OSError] as a rule, a [ValueError] for a
    name that holds a NUL character.  [main] does not catch it. *)
Record runtime : Type := {
  path_exists : string -> bool;
  makedirs_error : string -> option exn;
  json_load : string -> loaded;
  write_error : string -> option string;
  set_order : list string -> list string
}.

(** ** Operations of Python objects on JSON values *)

Definition dict_get (key : string) (default : json)
    (fields : list (string * json)) : json :=
  match lookup key fields with Some v => v | None => default end.

(** [obj.get(key, default)]: only a [dict] has the method. *)
Definition py_get (obj : json) (key : string) (default : json) : res json :=
  match obj with
  | JDict f => Ok (dict_get key default f)
  | _ => Raise AttributeError
  end.

Definition json_is_str (key : string) (v : json) : bool :=
  match v with
  | JStr s => String.eqb key s
  | _ => false
  end.

(** [key in obj] for a string [key]. *)
Definition py_contains (key : string) (obj : json) : res bool :=
  match obj with
  | JDict f => Ok (has_key key f)
  | JList l => Ok (existsb (json_is_str key) l)
  | JStr s => Ok (str_contains key s)
  | _ => Raise TypeError
  end.

(** [obj[key]] for a string [key]. *)
Definition py_getitem (obj : json) (key : string) : res json :=
  match obj with
  | JDict f => match lookup key f with Some v => Ok v | None => Raise KeyError end
  | _ => Raise TypeError
  end.

Fixpoint chars (s : string) : list json :=
  match s with
  | EmptyString => []
  | String c s' => JStr (String c EmptyString) :: chars s'
  end.

(** The items a [for] loop over [obj] visits. *)
Definition py_iter (obj : json) : res (list json) :=
  match obj with
  | JList l => Ok l
  | JDict f => Ok (map (fun kv => JStr (fst kv)) f)
  | JStr s => Ok (chars s)
  | _ => Raise TypeError
  end.

(** ** [re.findall(r"https?://\S+", s)] *)

(** The pattern at the start of [s]: [http], an optional [s] tried first,
    [://], then one or more non-whitespace characters, as many as there
    are.  The result is the matched text and what follows it. *)
Definition match_tail (scheme : string) (s : string) : option (string * string) :=
  match strip "://" s with
  | None => None
  | Some r =>
      match span_nonspace r with
      | (EmptyString, _) => None
      | (run, rest) => Some ((scheme ++ "://" ++ run)%string, rest)
      end
  end.

Definition match_here (s : string) : option (string * string) :=
  match strip "http" s with
  | None => None
  | Some r =>
      match (match strip "s" r with
             | Some r' => match_tail "https" r'
             | None => None
             end) with
      | Some m => Some m
      | None => match_tail "http" r
      end
  end.

(** The scan: leftmost match first, the next search starts where the
    match ended, a position without a match is skipped. *)
Fixpoint findall_fuel (fuel : nat) (s : string) : list string :=
  match fuel with
  | O => []
  | S fuel' =>
      match s with
      | EmptyString => []
      | String _ s' =>
          match match_here s with
          | Some (url, rest) => url :: findall_fuel fuel' rest
          | None => findall_fuel fuel' s'
          end
      end
  end.

Definition findall (s : string) : list string :=
  findall_fuel (String.length s) s.

(** ** [json.dumps] with its default arguments *)

Definition dquote : ascii := ascii_of_nat 34.
Definition backslash : ascii := ascii_of_nat 92.

Definition digit_char (d : N) : ascii := ascii_of_N (48 + d).

Fixpoint digits_fuel (fuel : nat) (n : N) (acc : string) : string :=
  match fuel with
  | O => acc
  | S fuel' =>
      let acc' := String (digit_char (n mod 10)) acc in
      if (n <? 10)%N then acc' else digits_fuel fuel' (n / 10) acc'
  end.

Definition repr_N (n : N) : string :=
  digits_fuel (S (N.to_nat (N.log2 n))) n EmptyString.

(** [repr] of an [int]. *)
Definition repr_int (z : Z) : string :=
  if (z <? 0)%Z then String "-" (repr_N (Z.abs_N z)) else repr_N (Z.abs_N z).

Definition hex_char (d : nat) : ascii :=
  if d <? 10 then ascii_of_nat (48 + d) else ascii_of_nat (87 + d).

(** One character of a string literal, [ensure_ascii] being on. *)
Definition escape_char (c : ascii) : string :=
  let n := nat_of_ascii c in
  if n =? 34 then String backslash (String dquote EmptyString)
  else if n =? 92 then String backslash (String backslash EmptyString)
  else if n =? 10 then String backslash "n"
  else if n =? 13 then String backslash "r"
  else if n =? 9 then String backslash "t"
  else if n =? 8 then String backslash "b"
  else if n =? 12 then String backslash "f"
  else if (32 <=? n) && (n <=? 126) then String c EmptyString
  else String backslash
         (String "u" (String "0" (String "0"
           (String (hex_char (n / 16)) (String (hex_char (n mod 16)) EmptyString))))).

Fixpoint escape (s : string) : string :=
  match s with
  | EmptyString => EmptyString
  | String c s' => (escape_char c ++ escape s')%string
  end.

Definition encode_str (s : string) : string :=
  String dquote (escape s ++ String dquote EmptyString)%string.

Fixpoint dumps (v : json) : string :=
  match v with
  | JNull => "null"
  | JBool true => "true"
  | JBool false => "false"
  | JInt n => repr_int n
  | JStr s => encode_str s
  | JList l => ("[" ++ String.concat ", " (map dumps l) ++ "]")%string
  | JDict f =>
      ("{" ++ String.concat ", "
                (map (fun '(k, x) => encode_str k ++ ": " ++ dumps x) f)
           ++ "}")%string
  end.

(** ** [json.loads]

    The decoder of the standard library, used to read back what [dumps]
    wrote.  [None] stands for a rejected text and for a text outside the
    model: a number with a fraction or an exponent, [NaN], [Infinity], an
    escape [\uXXXX] above 255. *)



Definition is_digit (c : ascii) : bool :=
  let n := nat_of_ascii c in (48 <=? n) && (n <=? 57).

Definition digit_value (c : ascii) : N := (N_of_ascii c - 48)%N.






















(** ** The functions of [json_parser.py] *)

(** [load_json]: the parsed document, or [None] after reporting the
    failure. *)
Definition load_json (rt : runtime) (file_path : string) : py (option json) :=
  match json_load rt file_path with
  | Loaded data => ret (Some data)
  | LoadError e =>
      emit (Print ("Error loading JSON file: " ++ e)%string) ;;; ret None
  end.

(** The inner function [search] of [extract_urls]; the result is what it
    has appended to [urls], in order. *)
Fixpoint search (obj : json) : list string :=
  match obj with
  | JDict f => flat_map (fun '(_, value) => search value) f
  | JList l => flat_map search l
  | JStr s => findall s
  | _ => []
  end.

(** [list(set(urls))]: the interpreter chooses the order. *)
Definition list_of_set (rt : runtime) (urls : list string) : list string :=
  set_order rt urls.

Definition extract_urls (rt : runtime) (json_data : json) : list string :=
  list_of_set rt (search json_data).

Definition mem (x : string) (l : list string) : bool :=
  existsb (String.eqb x) l.

Fixpoint distinct (l : list string) : bool :=
  match l with
  | [] => true
  | x :: r => negb (mem x r) && distinct r
  end.

(** [out] lists the set of the elements of [l]: no repetition, the same
    members. *)
Definition lists_set (l out : list string) : bool :=
  distinct out
  && forallb (fun x => mem x l) out
  && forallb (fun x => mem x out) l.

(** The interpreter iterates the set built from [l] in a legitimate
    order. *)
Definition set_order_ok (rt : runtime) (l : list string) : bool :=
  lists_set l (set_order rt l).

Definition cot_warning : string :=
  "Warning: 'chain_of_thought' key not found in JSON. Using an empty list.".

Definition extract_chain_of_thought (json_data : json) : py json :=
  present <- lift (py_contains "chain_of_thought" json_data) ;;
  (if negb present then emit (Print cot_warning) else ret tt) ;;;
  lift (py_get json_data "chain_of_thought" (JList [])).

(** The loop over the steps of the chain, [tool_execs] being the
    accumulator. *)
Fixpoint collect_steps (steps : list json) (tool_execs : list json)
  : res (list json) :=
  match steps with
  | [] => Ok tool_execs
  | step :: rest =>
      rbind (py_contains "tool_executions" step) (fun present =>
      if present then
        rbind (py_getitem step "tool_executions") (fun execs =>
        rbind (py_iter execs) (fun exec_items =>
        collect_steps rest (tool_execs ++ exec_items)))
      else collect_steps rest tool_execs)
  end.

Definition extract_tool_executions (json_data : json) : py (list json) :=
  chain <- extract_chain_of_thought json_data ;;
  steps <- lift (py_iter chain) ;;
  lift (collect_steps steps []).

Definition default_keywords : list string :=
  ["maps"; "flights"; "hotels"; "booking"; "price"; "search"; "showtimes"].

(** [sum(1 for keyword in keywords if keyword in url.lower())] *)
Definition score (keywords : list string) (url : string) : nat :=
  List.length
    (filter (fun keyword => str_contains keyword (lower url)) keywords).

(** [url_relevance[score].append(url)] on a [defaultdict(list)]. *)
Fixpoint bucket_append (k : nat) (url : string)
    (d : list (nat * list string)) : list (nat * list string) :=
  match d with
  | [] => [(k, [url])]
  | (k', l) :: d' =>
      if k' =? k then (k', l ++ [url]) :: d'
      else (k', l) :: bucket_append k url d'
  end.

Fixpoint bucket (k : nat) (d : list (nat * list string)) : list string :=
  match d with
  | [] => []
  | (k', l) :: d' => if k' =? k then l else bucket k d'
  end.

Fixpoint insert_desc (k : nat) (l : list nat) : list nat :=
  match l with
  | [] => [k]
  | x :: r => if x <? k then k :: l else x :: insert_desc k r
  end.

(** [sorted(keys, reverse=True)] *)
Definition sorted_reverse (keys : list nat) : list nat :=
  fold_left (fun acc k => insert_desc k acc) keys [].

Definition sort_urls_by_relevance (urls : list string)
    (keywords : option (list string)) : list string :=
  let keywords :=
    match keywords with None => default_keywords | Some kws => kws end in
  let url_relevance :=
    fold_left (fun d url => bucket_append (score keywords url) url d) urls [] in
  flat_map (fun k => bucket k url_relevance)
           (sorted_reverse (map fst url_relevance)).

Definition flatten_tool_execution (exec_data : json) : res json :=
  rbind (py_get exec_data "tool_name" (JStr "")) (fun tool_name =>
  rbind (py_get exec_data "method_name" (JStr "")) (fun method_name =>
  rbind (py_get exec_data "params" (JDict [])) (fun params =>
  rbind (py_get exec_data "output" (JList [])) (fun output =>
  Ok (JDict [("tool_name", tool_name);
             ("method_name", method_name);
             ("params", JStr (dumps params));
             ("output", JStr (dumps output))]))))).

Definition save_to_json (rt : runtime) (data : json) (output_file : string)
  : py unit :=
  emit (SaveJson output_file data) ;;;
  match write_error rt output_file with
  | Some e => emit (Print ("Error saving to JSON: " ++ e)%string)
  | None => ret tt
  end.

Definition save_to_csv (rt : runtime) (data : list json)
    (output_file : string) (headers : list string) : py unit :=
  emit (SaveCsv output_file headers data) ;;;
  match write_error rt output_file with
  | Some e => emit (Print ("Error saving to CSV: " ++ e)%string)
  | None => ret tt
  end.

Fixpoint ends_with_slash (s : string) : bool :=
  match s with
  | EmptyString => false
  | String c EmptyString => Ascii.eqb c "/"
  | String _ s' => ends_with_slash s'
  end.

(** [os.path.join(a, b)] for a relative [b]. *)
Definition path_join (a b : string) : string :=
  if String.eqb a "" || ends_with_slash a then (a ++ b)%string
  else (a ++ "/" ++ b)%string.

(** The list comprehension over [flatten_tool_execution]. *)
Fixpoint flatten_all (tool_execs : list json) : res (list json) :=
  match tool_execs with
  | [] => Ok []
  | exec_data :: rest =>
      rbind (flatten_tool_execution exec_data) (fun flat =>
      rbind (flatten_all rest) (fun flats => Ok (flat :: flats)))
  end.

Definition dict_keys (d : json) : list string :=
  match d with
  | JDict f => map fst f
  | _ => []
  end.

Definition is_nil {A} (l : list A) : bool :=
  match l with [] => true | _ => false end.

Inductive exit : Type :=
| EarlyReturn
| Completed.

(** What [main] has computed when it starts writing. *)
Record gathered : Type := {
  output_data : json;
  flat_tool_execs : list json;
  sorted_urls : list string
}.

(** [main] from the metadata to the assembled report. *)
Definition gather (rt : runtime) (json_data : json) : py gathered :=
  location <- lift (py_get json_data "location" (JStr "")) ;;
  time <- lift (py_get json_data "time" (JStr "")) ;;
  error <- lift (py_get json_data "error" (JStr "")) ;;
  observation <- lift (py_get json_data "observation" (JStr "")) ;;
  let metadata := JDict [("location", location); ("time", time);
                          ("error", error); ("observation", observation)] in
  chain <- extract_chain_of_thought json_data ;;
  tool_execs <- extract_tool_executions json_data ;;
  flats <- lift (flatten_all tool_execs) ;;
  let all_urls := extract_urls rt json_data in
  let ranked := sort_urls_by_relevance all_urls None in
  (if is_nil ranked then emit (Print "No URLs were found in the JSON data.")
   else ret tt) ;;;
  ret {| output_data :=
           JDict [("metadata", metadata);
                  ("chain_of_thought", chain);
                  ("tool_executions", JList tool_execs);
                  ("sorted_urls", JList (map JStr ranked))];
         flat_tool_execs := flats;
         sorted_urls := ranked |}.

(** [main] from the output paths to the end. *)
Definition write_outputs (rt : runtime) (output_folder : string)
    (g : gathered) : py unit :=
  let json_output := path_join output_folder "extracted_data.json" in
  let tool_csv_output := path_join output_folder "tool_executions.csv" in
  let urls_csv_output := path_join output_folder "urls.csv" in
  save_to_json rt (output_data g) json_output ;;;
  (match flat_tool_execs g with
   | first :: _ =>
       save_to_csv rt (flat_tool_execs g) tool_csv_output (dict_keys first)
   | [] => emit (Print "No tool execution details found to export.")
   end) ;;;
  (if is_nil (sorted_urls g) then ret tt
   else save_to_csv rt
          (map (fun url => JDict [("url", JStr url)]) (sorted_urls g))
          urls_csv_output ["url"]) ;;;
  emit (Print "Data extraction complete. Files saved:") ;;;
  emit (Print ("  - " ++ json_output)%string) ;;;
  (if is_nil (flat_tool_execs g) then ret tt
   else emit (Print ("  - " ++ tool_csv_output)%string)) ;;;
  (if is_nil (sorted_urls g) then ret tt
   else emit (Print ("  - " ++ urls_csv_output)%string)).

Definition prepare_folder (rt : runtime) (output_folder : option string)
  : py string :=
  match output_folder with
  | None => ret "."
  | Some folder =>
      if path_exists rt folder then ret folder
      else
        emit (MakeDirs folder) ;;;
        match makedirs_error rt folder with
        | Some e => raise e
        | None => ret folder
        end
  end.

(** [not json_data] on what [load_json] returned. *)
Definition not_data (json_data : option json) : bool :=
  match json_data with
  | None => true
  | Some data => negb (truthy data)
  end.

Definition main (rt : runtime) (input_file : string)
    (output_folder : option string) : py exit :=
  folder <- prepare_folder rt output_folder ;;
  json_data <- load_json rt input_file ;;
  if not_data json_data then ret EarlyReturn
  else
    match json_data with
    | None => ret EarlyReturn
    | Some data =>
        g <- gather rt data ;;
        write_outputs rt folder g ;;;
        ret Completed
    end.

(** ** Definitions used to state the properties *)

(** The loop that fills [url_relevance], for a score function [sc],
    started from [d]. *)
Definition fill (sc : string -> nat) (urls : list string)
    (d : list (nat * list string)) : list (nat * list string) :=
  fold_left (fun d url => bucket_append (sc url) url d) urls d.

(** The loop and the concatenation of [sort_urls_by_relevance], for a
    score function [sc]. *)
Definition rank (sc : string -> nat) (urls : list string) : list string :=
  flat_map (fun k => bucket k (fill sc urls []))
           (sorted_reverse (map fst (fill sc urls []))).

(** The groups of [urls] by score, concatenated along [keys]. *)
Definition groups (sc : string -> nat) (urls : list string)
    (keys : list nat) : list string :=
  flat_map (fun k => filter (fun u => k =? sc u) urls) keys.

(** [descending l]: every element is at least every later one. *)
Fixpoint descending (l : list nat) : Prop :=
  match l with
  | [] => True
  | x :: r => (forall y, In y r -> y <= x) /\ descending r
  end.

Definition keywords_or_default (keywords : option (list string))
  : list string :=
  match keywords with None => default_keywords | Some kws => kws end.

(** A keyword occurs in a URL, letter case being ignored on both sides. *)
Definition occurs_ignoring_case (keyword url : string) : bool :=
  str_contains (lower keyword) (lower url).

(** The relevance score as the specification words it: how many distinct
    keywords occur in the URL, case-insensitively. *)
Definition relevance (keywords : list string) (url : string) : nat :=
  List.length
    (filter (fun keyword => occurs_ignoring_case keyword url)
            (nodup string_dec keywords)).

(** [out] ranks [urls] by [sc]: a URL of higher score stands before every
    URL of lower score, and the URLs of one score keep their order. *)
Definition ranked_by (sc : string -> nat) (urls out : list string) : Prop :=
  (forall i j x y,
      nth_error out i = Some x -> nth_error out j = Some y ->
      sc y < sc x -> i < j)
  /\ (forall k, filter (fun u => sc u =? k) out
                = filter (fun u => sc u =? k) urls).

Definition all_lowercase (keywords : list string) : bool :=
  forallb (fun keyword => String.eqb (lower keyword) keyword) keywords.

(** The ranking property for one list of URLs and one keyword argument. *)
Definition ranks_by_relevance (urls : list string)
    (keywords : option (list string)) : Prop :=
  let kws := keywords_or_default keywords in
  (forall url, score kws url = relevance kws url)
  /\ ranked_by (relevance kws) urls (sort_urls_by_relevance urls keywords).

(** The document has no top-level field [chain_of_thought]. *)
Definition lacks_chain_of_thought (json_data : json) : bool :=
  match json_data with
  | JDict f => negb (has_key "chain_of_thought" f)
  | _ => true
  end.

(** What the specification promises for a document without the field. *)
Definition warns_and_returns_empty (json_data : json) : Prop :=
  lacks_chain_of_thought json_data = true ->
  extract_chain_of_thought json_data = ([Print cot_warning], Ok (JList [])).


(** The chain of a mapping document and the warning printed on the way. *)
Definition chain_of (fields : list (string * json)) : json :=
  dict_get "chain_of_thought" (JList []) fields.

Definition cot_trace (fields : list (string * json)) : list event :=
  if has_key "chain_of_thought" fields then [] else [Print cot_warning].

Definition tool_execs_of (fields : list (string * json)) : res (list json) :=
  rbind (py_iter (chain_of fields)) (fun steps => collect_steps steps []).

Definition metadata_of (fields : list (string * json)) : json :=
  JDict [("location", dict_get "location" (JStr "") fields);
         ("time", dict_get "time" (JStr "") fields);
         ("error", dict_get "error" (JStr "") fields);
         ("observation", dict_get "observation" (JStr "") fields)].

(** The write attempts of a trace. *)
Definition is_save (ev : event) : bool :=
  match ev with
  | SaveJson _ _ | SaveCsv _ _ _ => true
  | _ => false
  end.

Definition saves (t : list event) : list event := filter is_save t.

Definition url_rows (urls : list string) : list json :=
  map (fun url => JDict [("url", JStr url)]) urls.

(** The write attempts of [main] once [g] has been gathered. *)
Definition expected_saves (folder : string) (g : gathered) : list event :=
  SaveJson (path_join folder "extracted_data.json") (output_data g)
  :: match flat_tool_execs g with
     | first :: _ =>
         [SaveCsv (path_join folder "tool_executions.csv")
                  (dict_keys first) (flat_tool_execs g)]
     | [] => []
     end
  ++ (if is_nil (sorted_urls g) then []
      else [SaveCsv (path_join folder "urls.csv") ["url"]
                    (url_rows (sorted_urls g))]).

(** The report and the gathered data of a mapping document, given its
    tool executions and their flattened forms. *)
Definition ranked_urls (rt : runtime) (json_data : json) : list string :=
  sort_urls_by_relevance (extract_urls rt json_data) None.

Definition report_of (rt : runtime) (fields : list (string * json))
    (tool_execs : list json) : json :=
  JDict [("metadata", metadata_of fields);
         ("chain_of_thought", chain_of fields);
         ("tool_executions", JList tool_execs);
         ("sorted_urls", JList (map JStr (ranked_urls rt (JDict fields))))].

Definition gathered_of (rt : runtime) (fields : list (string * json))
    (tool_execs flats : list json) : gathered :=
  {| output_data := report_of rt fields tool_execs;
     flat_tool_execs := flats;
     sorted_urls := ranked_urls rt (JDict fields) |}.

Definition no_urls_trace (rt : runtime) (json_data : json) : list event :=
  if is_nil (ranked_urls rt json_data)
  then [Print "No URLs were found in the JSON data."] else [].

Definition folder_of (output_folder : option string) : string :=
  match output_folder with None => "." | Some folder => folder end.

(** The output folder is there or can be created. *)
Definition folder_ready (rt : runtime) (output_folder : option string) : bool :=
  match output_folder with
  | None => true
  | Some folder =>
      path_exists rt folder
      || match makedirs_error rt folder with None => true | Some _ => false end
  end.

Definition is_dict (v : json) : bool :=
  match v with JDict _ => true | _ => false end.

(** The records of one step, as the specification describes the trace: a
    step is a mapping, its field [tool_executions], when there is one, is
    a sequence. *)
Definition records_of_step (step : json) : list json :=
  match step with
  | JDict f =>
      match lookup "tool_executions" f with
      | Some (JList execs) => execs
      | _ => []
      end
  | _ => []
  end.

Definition step_ok (step : json) : bool :=
  match step with
  | JDict f =>
      match lookup "tool_executions" f with
      | None | Some (JList _) => true
      | Some _ => false
      end
  | _ => false
  end.

(** What the specification says of a document whose chain is a sequence
    of mapping steps: the call returns the records of the steps, one
    step after the other. *)
Definition returns_step_records (json_data : json) : Prop :=
  forall fields steps,
    json_data = JDict fields ->
    lookup "chain_of_thought" fields = Some (JList steps) ->
    forallb is_dict steps = true ->
    snd (extract_tool_executions json_data)
    = Ok (flat_map records_of_step steps).

(** A trace of the expected shape: the chain is a sequence of mapping
    steps, the tool executions of a step are a sequence of mappings. *)
Definition trace_shaped (fields : list (string * json)) : bool :=
  match chain_of fields with
  | JList steps =>
      forallb step_ok steps
      && forallb is_dict (flat_map records_of_step steps)
  | _ => false
  end.

(** The documents that [not json_data] takes for no data. *)
Definition falsy_document (json_data : json) : Prop :=
  json_data = JNull \/ json_data = JBool false \/ json_data = JInt 0
  \/ json_data = JStr "" \/ json_data = JList [] \/ json_data = JDict [].

(** What the specification says of the load check, for one run: a
    document that parses is taken past the check and its report is
    written. *)
Definition aborts_only_on_load_failure (rt : runtime) (input_file : string)
    (output_folder : option string) : Prop :=
  forall json_data,
    json_load rt input_file = Loaded json_data ->
    snd (main rt input_file output_folder) <> Ok EarlyReturn
    /\ exists path report,
         In (SaveJson path report) (fst (main rt input_file output_folder)).

(** A runtime in which every file operation succeeds, the input file
    holds [doc], and a set is iterated in the order of the last insertion
    of each element. *)
Definition quiet_runtime (doc : json) : runtime :=
  {| path_exists := fun _ => true;
     makedirs_error := fun _ => None;
     json_load := fun _ => Loaded doc;
     write_error := fun _ => None;
     set_order := nodup string_dec |}.

Definition example_document : json :=
  JDict [("location", JStr "NYC");
         ("chain_of_thought",
          JList [JDict [("tool_executions",
                         JList [JDict [("tool_name", JStr "flights");
                                       ("params", JDict []);
                                       ("output", JList [JInt 1])]])]]);
         ("notes", JStr "see https://flights.example.com/search?x=1")].

Definition example_url : string := "https://flights.example.com/search?x=1".

(** A CSV write to [name] in [folder] is attempted in the trace [t]. *)
Definition csv_attempted (t : list event) (folder name : string) : Prop :=
  exists headers rows, In (SaveCsv (path_join folder name) headers rows) t.

(** What the specification says of the CSV files of a run that has loaded
    [json_data]: each CSV write is attempted exactly when its source
    collection is not empty. *)
Definition csv_writes_match_sources (rt : runtime) (input_file : string)
    (output_folder : option string) (json_data : json) : Prop :=
  let t := fst (main rt input_file output_folder) in
  let folder := folder_of output_folder in
  (extract_urls rt json_data = [] -> ~ csv_attempted t folder "urls.csv")
  /\ (extract_urls rt json_data <> [] -> csv_attempted t folder "urls.csv")
  /\ (forall tool_execs,
        snd (extract_tool_executions json_data) = Ok tool_execs ->
        (tool_execs = [] -> ~ csv_attempted t folder "tool_executions.csv")
        /\ (tool_execs <> [] ->
            csv_attempted t folder "tool_executions.csv")).

(** A document with one record that is not a mapping, and a URL. *)
Definition number_record_document : json :=
  JDict [("chain_of_thought",
          JList [JDict [("tool_executions", JList [JInt 5])]]);
         ("notes", JStr "see http://a")].

(** A document with four steps: two records, no field, an empty field,
    one record. *)
Definition four_step_fields : list (string * json) :=
  [("chain_of_thought",
    JList [JDict [("thought", JStr "look up");
                  ("tool_executions",
                   JList [JDict [("tool_name", JStr "maps")];
                          JDict [("tool_name", JStr "flights");
                                 ("output", JList [JInt 1])]])];
           JDict [("thought", JStr "think")];
           JDict [("tool_executions", JList [])];
           JDict [("tool_executions",
                   JList [JDict [("tool_name", JStr "hotels")]])]])].

(** [s] is a string value of the document: the document itself, an item
    of a sequence or the value of a field, at any depth.  Keys are not
    string values. *)
Inductive string_value : json -> string -> Prop :=
| sv_str : forall s, string_value (JStr s) s
| sv_item : forall l x s,
    In x l -> string_value x s -> string_value (JList l) s
| sv_field : forall f k x s,
    In (k, x) f -> string_value x s -> string_value (JDict f) s.

Fixpoint all_nonspace (s : string) : bool :=
  match s with
  | EmptyString => true
  | String c s' => negb (is_space c) && all_nonspace s'
  end.

Definition url_body (run : string) : bool :=
  negb (String.eqb run "") && all_nonspace run.

(** URL-like text: [http://] or [https://], then one or more characters,
    none of them whitespace. *)
Definition url_like (u : string) : bool :=
  match strip "https://" u with
  | Some run => url_body run
  | None =>
      match strip "http://" u with
      | Some run => url_body run
      | None => false
      end
  end.

(** What follows a maximal run: nothing, or a whitespace character. *)
Definition ends_run (after : string) : bool :=
  match after with
  | EmptyString => true
  | String c _ => is_space c
  end.

(** [u] is a URL-like substring of [s] whose run of non-whitespace
    characters is maximal. *)
Definition url_occurrence (s u : string) : Prop :=
  exists before after,
    s = (before ++ u ++ after)%string
    /\ url_like u = true /\ ends_run after = true.

(** The same, for an occurrence that is not the tail of a longer URL-like
    substring of [s]. *)
Definition outer_url_occurrence (s u : string) : Prop :=
  exists before after,
    s = (before ++ u ++ after)%string
    /\ url_like u = true /\ ends_run after = true
    /\ forall b1 b2, before = (b1 ++ b2)%string -> b2 <> EmptyString ->
                     url_like (b2 ++ u) = false.

Definition begins_with_scheme (u : string) : bool :=
  String.prefix "http://" u || String.prefix "https://" u.

(** The contract of [extract_urls] as the specification words it, for one
    runtime and one document. *)
Definition collects_url_occurrences (rt : runtime) (json_data : json) : Prop :=
  set_order_ok rt (search json_data) = true ->
  NoDup (extract_urls rt json_data)
  /\ (forall u, In u (extract_urls rt json_data) -> begins_with_scheme u = true)
  /\ (forall u, In u (extract_urls rt json_data)
                <-> exists s, string_value json_data s /\ url_occurrence s u).

(** Renaming the keys of every mapping of a document. *)
Fixpoint rename_keys (g : string -> string) (v : json) : json :=
  match v with
  | JList l => JList (map (rename_keys g) l)
  | JDict f => JDict (map (fun '(k, x) => (g k, rename_keys g x)) f)
  | _ => v
  end.




(** The text of one member, as [dumps] writes it. *)
Definition member_text (kv : string * json) : string :=
  let '(k, x) := kv in (encode_str k ++ ": " ++ dumps x)%string.


(** ** The script and further definitions used to state properties *)

(** The block run when the file is executed: [sys.argv] gives the input
    path (default [input.json]) and the output folder (default: none). *)
Definition script (rt : runtime) (argv : list string) : py exit :=
  let input_filepath :=
    match argv with
    | _ :: path :: _ => path
    | _ => "input.json"
    end in
  let output_dir :=
    match argv with
    | _ :: _ :: dir :: _ => Some dir
    | _ => None
    end in
  main rt input_filepath output_dir.

(** The output folder that a command line selects. *)
Definition script_folder (argv : list string) : string :=
  match argv with
  | _ :: _ :: dir :: _ => dir
  | _ => "."
  end.

(** A runtime in which no folder exists and [os.makedirs] raises [e]. *)
Definition no_folder_runtime (e : exn) (doc : json) : runtime :=
  {| path_exists := fun _ => false;
     makedirs_error := fun _ => Some e;
     json_load := fun _ => Loaded doc;
     write_error := fun _ => None;
     set_order := nodup string_dec |}.

(** The same runtime with other write failures. *)
Definition with_write_error (rt : runtime) (w : string -> option string)
  : runtime :=
  {| path_exists := path_exists rt;
     makedirs_error := makedirs_error rt;
     json_load := json_load rt;
     write_error := w;
     set_order := set_order rt |}.

(** The file a write attempt is aimed at. *)
Definition save_target (ev : event) : option string :=
  match ev with
  | SaveJson path _ | SaveCsv path _ _ => Some path
  | _ => None
  end.

Definition targets (t : list event) : list string :=
  flat_map (fun ev => match save_target ev with Some p => [p] | None => [] end)
           t.

Definition is_makedirs (ev : event) : bool :=
  match ev with MakeDirs _ => true | _ => false end.

Definition is_print (ev : event) : bool :=
  match ev with Print _ => true | _ => false end.

(** The lines printed, in order. *)
Definition printed (t : list event) : list string :=
  flat_map (fun ev => match ev with Print line => [line] | _ => [] end) t.

(** The report of a failed write, if it failed. *)
Definition write_report (rt : runtime) (label path : string) : list event :=
  match write_error rt path with
  | Some e => [Print (label ++ e)%string]
  | None => []
  end.

(** The message printed after a write attempt, if the attempt fails. *)
Definition failure_report (rt : runtime) (ev : event) : list event :=
  match ev with
  | SaveJson path _ => write_report rt "Error saving to JSON: " path
  | SaveCsv path _ _ => write_report rt "Error saving to CSV: " path
  | _ => []
  end.

(** A printed line that reports a failed write. *)
Definition is_error_report (ev : event) : bool :=
  match ev with
  | Print line => String.prefix "Error saving to " line
  | _ => false
  end.

Definition starts_with_report (t : list event) : bool :=
  match t with
  | ev :: _ => is_error_report ev
  | [] => false
  end.

(** The trace of [main] from its first write on. *)
Definition write_trace (rt : runtime) (folder : string) (g : gathered)
  : list event :=
  let json_output := path_join folder "extracted_data.json" in
  let tool_csv_output := path_join folder "tool_executions.csv" in
  let urls_csv_output := path_join folder "urls.csv" in
  [SaveJson json_output (output_data g)]
  ++ write_report rt "Error saving to JSON: " json_output
  ++ match flat_tool_execs g with
     | first :: _ =>
         SaveCsv tool_csv_output (dict_keys first) (flat_tool_execs g)
         :: write_report rt "Error saving to CSV: " tool_csv_output
     | [] => [Print "No tool execution details found to export."]
     end
  ++ (if is_nil (sorted_urls g) then []
      else SaveCsv urls_csv_output ["url"] (url_rows (sorted_urls g))
           :: write_report rt "Error saving to CSV: " urls_csv_output)
  ++ [Print "Data extraction complete. Files saved:";
      Print ("  - " ++ json_output)%string]
  ++ (if is_nil (flat_tool_execs g) then []
      else [Print ("  - " ++ tool_csv_output)%string])
  ++ (if is_nil (sorted_urls g) then []
      else [Print ("  - " ++ urls_csv_output)%string]).

(** A value that is neither a container nor a string. *)
Definition is_scalar (v : json) : bool :=
  match v with
  | JNull | JBool _ | JInt _ => true
  | _ => false
  end.

(** A step on which the loop of [extract_tool_executions] stops: a scalar,
    or a mapping whose [tool_executions] is a scalar. *)
Definition bad_step (step : json) : bool :=
  match step with
  | JDict f =>
      match lookup "tool_executions" f with
      | Some v => is_scalar v
      | None => false
      end
  | _ => is_scalar step
  end.

Fixpoint nonincreasing (l : list nat) : bool :=
  match l with
  | [] => true
  | x :: r =>
      match r with
      | [] => true
      | y :: _ => (y <=? x) && nonincreasing r
      end
  end.

(** The characters that [json.dumps] lets through with [ensure_ascii]. *)
Definition printable_char (c : ascii) : bool :=
  let n := nat_of_ascii c in (32 <=? n) && (n <=? 126).

Fixpoint printable (s : string) : bool :=
  match s with
  | EmptyString => true
  | String c s' => printable_char c && printable s'
  end.

Definition is_cot_warning (ev : event) : bool :=
  match ev with
  | Print line => String.eqb line cot_warning
  | _ => false
  end.

Definition no_makedirs (t : list event) : bool :=
  forallb (fun ev => negb (is_makedirs ev)) t.

(** * Properties *)

(** ** Lists *)

Lemma flat_map_agree {A B} (f g : A -> list B) (l : list A) :
  (forall a, In a l -> f a = g a) -> flat_map f l = flat_map g l.
Proof.
  induction l as [|a l IH]; simpl; intros H; [reflexivity|].
  rewrite H by (now left). rewrite IH; [reflexivity|].
  intros b Hb. apply H. now right.
Qed.

Lemma filter_flat_map {A B} (p : B -> bool) (f : A -> list B) (l : list A) :
  filter p (flat_map f l) = flat_map (fun a => filter p (f a)) l.
Proof.
  induction l as [|a l IH]; simpl; [reflexivity|].
  now rewrite filter_app, IH.
Qed.

(** ** The relevance ranker *)

Section Buckets.

Variable sc : string -> nat.

Lemma bucket_after_append k k' u d :
  bucket k' (bucket_append k u d)
  = if k' =? k then bucket k d ++ [u] else bucket k' d.
Proof.
  induction d as [|[k0 l] d IH]; simpl.
  - rewrite (Nat.eqb_sym k k'). destruct (k' =? k); reflexivity.
  - destruct (k0 =? k) eqn:E0; simpl.
    + apply Nat.eqb_eq in E0; subst k0.
      rewrite (Nat.eqb_sym k k').
      destruct (k' =? k) eqn:E; [|reflexivity].
      apply Nat.eqb_eq in E; subst k'. reflexivity.
    + destruct (k0 =? k') eqn:E1.
      * apply Nat.eqb_eq in E1; subst k0.
        rewrite E0. reflexivity.
      * rewrite IH. reflexivity.
Qed.

Lemma keys_after_append k u d :
  map fst (bucket_append k u d)
  = if existsb (Nat.eqb k) (map fst d) then map fst d else map fst d ++ [k].
Proof.
  induction d as [|[k0 l] d IH]; simpl; [reflexivity|].
  rewrite (Nat.eqb_sym k k0).
  destruct (k0 =? k); simpl; [reflexivity|].
  rewrite IH. destruct (existsb (Nat.eqb k) (map fst d)); reflexivity.
Qed.

Lemma existsb_eqb_In k l : existsb (Nat.eqb k) l = true <-> In k l.
Proof.
  rewrite existsb_exists. split.
  - intros (x & Hx & E). apply Nat.eqb_eq in E. now subst.
  - intros H. exists k. split; [assumption | apply Nat.eqb_refl].
Qed.

Lemma keys_after_append_In k k' u d :
  In k' (map fst (bucket_append k u d)) <-> In k' (map fst d) \/ k' = k.
Proof.
  rewrite keys_after_append.
  destruct (existsb (Nat.eqb k) (map fst d)) eqn:E.
  - apply existsb_eqb_In in E. split; [auto|].
    intros [H| ->]; assumption.
  - rewrite in_app_iff. simpl. intuition auto.
Qed.

Lemma keys_after_append_NoDup k u d :
  NoDup (map fst d) -> NoDup (map fst (bucket_append k u d)).
Proof.
  intros H. rewrite keys_after_append.
  destruct (existsb (Nat.eqb k) (map fst d)) eqn:E; [assumption|].
  apply NoDup_app; [assumption | repeat constructor; simpl; tauto |].
  intros x Hx [->|[]].
  assert (existsb (Nat.eqb x) (map fst d) = true) by now apply existsb_eqb_In.
  congruence.
Qed.

Lemma contents_after_append k u d :
  Permutation (List.concat (map snd (bucket_append k u d)))
              (u :: List.concat (map snd d)).
Proof.
  induction d as [|[k0 l] d IH]; simpl; [reflexivity|].
  destruct (k0 =? k); simpl.
  - rewrite <- app_assoc. simpl.
    symmetry. apply Permutation_middle.
  - rewrite IH. symmetry. apply Permutation_middle.
Qed.

Lemma bucket_fill k urls d :
  bucket k (fill sc urls d) = bucket k d ++ filter (fun u => k =? sc u) urls.
Proof.
  revert d. induction urls as [|u urls IH]; intros d; simpl.
  - now rewrite app_nil_r.
  - unfold fill in *. simpl. rewrite IH, bucket_after_append.
    destruct (k =? sc u) eqn:E; [|reflexivity].
    apply Nat.eqb_eq in E; subst k.
    rewrite <- app_assoc. reflexivity.
Qed.

Lemma keys_fill_In k urls d :
  In k (map fst (fill sc urls d))
  <-> In k (map fst d) \/ exists u, In u urls /\ sc u = k.
Proof.
  revert d. induction urls as [|u urls IH]; intros d; simpl.
  - split; [auto|]. intros [H|(u & [] & _)]; assumption.
  - unfold fill in *. simpl. rewrite IH, keys_after_append_In. split.
    + intros [[H| ->]|(v & Hv & E)]; eauto.
    + intros [H|(v & [->|Hv] & E)]; eauto.
Qed.

Lemma keys_fill_NoDup urls d :
  NoDup (map fst d) -> NoDup (map fst (fill sc urls d)).
Proof.
  revert d. induction urls as [|u urls IH]; intros d H; simpl; [assumption|].
  apply IH, keys_after_append_NoDup, H.
Qed.

Lemma contents_fill urls d :
  Permutation (List.concat (map snd (fill sc urls d))) (List.concat (map snd d) ++ urls).
Proof.
  revert d. induction urls as [|u urls IH]; intros d; simpl.
  - now rewrite app_nil_r.
  - unfold fill in *. simpl. rewrite IH, contents_after_append.
    simpl. apply Permutation_middle.
Qed.

Lemma buckets_in_key_order d :
  NoDup (map fst d) ->
  flat_map (fun k => bucket k d) (map fst d) = List.concat (map snd d).
Proof.
  induction d as [|[k l] d IH]; simpl; intros H; [reflexivity|].
  inversion H as [|? ? Hk Hd]; subst.
  rewrite Nat.eqb_refl. f_equal.
  rewrite <- IH by assumption.
  apply flat_map_agree. intros k' Hk'.
  destruct (k =? k') eqn:E; [|reflexivity].
  apply Nat.eqb_eq in E; subst. contradiction.
Qed.

End Buckets.

(** [sorted(..., reverse=True)] on integers. *)

Lemma insert_desc_perm k l : Permutation (insert_desc k l) (k :: l).
Proof.
  induction l as [|x r IH]; simpl; [reflexivity|].
  destruct (x <? k); [reflexivity|].
  rewrite IH. apply perm_swap.
Qed.

Lemma sorted_reverse_perm keys : Permutation (sorted_reverse keys) keys.
Proof.
  unfold sorted_reverse.
  enough (H : forall acc, Permutation
            (fold_left (fun acc k => insert_desc k acc) keys acc) (acc ++ keys)).
  { apply (H []). }
  induction keys as [|k keys IH]; intros acc; simpl.
  - now rewrite app_nil_r.
  - rewrite IH, insert_desc_perm. apply Permutation_middle.
Qed.

Lemma insert_desc_descending k l : descending l -> descending (insert_desc k l).
Proof.
  induction l as [|x r IH]; simpl; intros H.
  - split; [intros y []|exact I].
  - destruct H as [Hx Hr].
    destruct (x <? k) eqn:E.
    + apply Nat.ltb_lt in E. simpl. split; [|split; assumption].
      intros y [->|Hy]; [lia|]. specialize (Hx y Hy). lia.
    + apply Nat.ltb_ge in E. simpl. split; [|apply IH, Hr].
      intros y Hy.
      apply (Permutation_in _ (insert_desc_perm k r)) in Hy.
      destruct Hy as [->|Hy]; [assumption | apply Hx, Hy].
Qed.

Lemma sorted_reverse_descending keys : descending (sorted_reverse keys).
Proof.
  unfold sorted_reverse.
  enough (H : forall acc, descending acc ->
            descending (fold_left (fun acc k => insert_desc k acc) keys acc)).
  { apply H. exact I. }
  induction keys as [|k keys IH]; intros acc Hacc; simpl; [assumption|].
  apply IH, insert_desc_descending, Hacc.
Qed.

Lemma nth_error_app_cases {A} (a b : list A) i x :
  nth_error (a ++ b) i = Some x ->
  (i < List.length a /\ nth_error a i = Some x)
  \/ (List.length a <= i /\ nth_error b (i - List.length a) = Some x).
Proof.
  intros H. destruct (Nat.lt_ge_cases i (List.length a)) as [Hi|Hi].
  - left. split; [assumption|]. now rewrite nth_error_app1 in H.
  - right. split; [assumption|]. now rewrite nth_error_app2 in H.
Qed.

Section Ranking.

Variable sc : string -> nat.

Lemma groups_member urls keys x :
  In x (groups sc urls keys) -> In (sc x) keys /\ In x urls.
Proof.
  unfold groups. rewrite in_flat_map. intros (k & Hk & Hx).
  apply filter_In in Hx. destruct Hx as [Hx E].
  apply Nat.eqb_eq in E. subst k. now split.
Qed.

Lemma groups_order urls keys :
  descending keys -> NoDup keys ->
  forall i j x y,
    nth_error (groups sc urls keys) i = Some x ->
    nth_error (groups sc urls keys) j = Some y ->
    sc y < sc x -> i < j.
Proof.
  induction keys as [|k keys IH]; intros Hd Hn i j x y Hi Hj Hlt.
  - destruct i; discriminate.
  - destruct Hd as [Hk Hd]. inversion Hn as [|? ? Hnk Hn']; subst.
    change (groups sc urls (k :: keys))
      with (filter (fun u => k =? sc u) urls ++ groups sc urls keys) in Hi, Hj.
    apply nth_error_app_cases in Hi. apply nth_error_app_cases in Hj.
    destruct Hi as [[Hi Hx]|[Hi Hx]], Hj as [[Hj Hy]|[Hj Hy]].
    + apply nth_error_In, filter_In in Hx, Hy.
      destruct Hx as [_ Ex], Hy as [_ Ey].
      apply Nat.eqb_eq in Ex, Ey. lia.
    + lia.
    + apply nth_error_In, groups_member in Hx.
      apply nth_error_In, filter_In in Hy.
      destruct Hx as [Hx _], Hy as [_ Ey].
      apply Nat.eqb_eq in Ey. specialize (Hk _ Hx). lia.
    + specialize (IH Hd Hn' _ _ _ _ Hx Hy Hlt). lia.
Qed.

Lemma filter_same_score urls k :
  filter (fun u => sc u =? k) (filter (fun u => k =? sc u) urls)
  = filter (fun u => sc u =? k) urls.
Proof.
  induction urls as [|u urls IH]; simpl; [reflexivity|].
  rewrite (Nat.eqb_sym k (sc u)).
  destruct (sc u =? k) eqn:E; simpl; rewrite ?E, IH; reflexivity.
Qed.

Lemma filter_other_score urls k k' :
  k <> k' ->
  filter (fun u => sc u =? k) (filter (fun u => k' =? sc u) urls) = [].
Proof.
  intros Hne. induction urls as [|u urls IH]; simpl; [reflexivity|].
  destruct (k' =? sc u) eqn:E; simpl; [|assumption].
  apply Nat.eqb_eq in E.
  destruct (sc u =? k) eqn:E'; [|assumption].
  apply Nat.eqb_eq in E'. congruence.
Qed.

Lemma filter_no_score urls k :
  (forall u, In u urls -> sc u <> k) ->
  filter (fun u => sc u =? k) urls = [].
Proof.
  induction urls as [|u urls IH]; simpl; intros H; [reflexivity|].
  destruct (sc u =? k) eqn:E.
  - apply Nat.eqb_eq in E. exfalso. apply (H u); auto.
  - apply IH. intros v Hv. apply H. now right.
Qed.

Lemma groups_select urls keys k :
  NoDup keys ->
  filter (fun u => sc u =? k) (groups sc urls keys)
  = if existsb (Nat.eqb k) keys
    then filter (fun u => sc u =? k) urls else [].
Proof.
  unfold groups. rewrite filter_flat_map.
  induction keys as [|k' keys IH]; intros Hn; simpl; [reflexivity|].
  inversion Hn as [|? ? Hnk Hn']; subst.
  rewrite (IH Hn').
  destruct (k =? k') eqn:E; simpl.
  - apply Nat.eqb_eq in E. subst k'.
    destruct (existsb (Nat.eqb k) keys) eqn:Ek.
    { apply existsb_eqb_In in Ek. contradiction. }
    now rewrite app_nil_r, filter_same_score.
  - apply Nat.eqb_neq in E. now rewrite filter_other_score.
Qed.

Lemma rank_groups urls :
  rank sc urls = groups sc urls (sorted_reverse (map fst (fill sc urls []))).
Proof.
  unfold rank, groups. apply flat_map_ext. intros k.
  now rewrite bucket_fill.
Qed.

Lemma rank_keys_NoDup urls :
  NoDup (sorted_reverse (map fst (fill sc urls []))).
Proof.
  eapply Permutation_NoDup.
  - symmetry. apply sorted_reverse_perm.
  - apply keys_fill_NoDup. constructor.
Qed.

Lemma rank_perm urls : Permutation (rank sc urls) urls.
Proof.
  unfold rank.
  rewrite (Permutation_flat_map _ (sorted_reverse_perm _)).
  rewrite buckets_in_key_order by (apply keys_fill_NoDup; constructor).
  apply (contents_fill sc urls []).
Qed.

Lemma rank_order urls i j x y :
  nth_error (rank sc urls) i = Some x ->
  nth_error (rank sc urls) j = Some y ->
  sc y < sc x -> i < j.
Proof.
  rewrite rank_groups.
  apply groups_order; [apply sorted_reverse_descending | apply rank_keys_NoDup].
Qed.

Lemma rank_stable urls k :
  filter (fun u => sc u =? k) (rank sc urls) = filter (fun u => sc u =? k) urls.
Proof.
  rewrite rank_groups, groups_select by apply rank_keys_NoDup.
  destruct (existsb (Nat.eqb k) _) eqn:E; [reflexivity|].
  symmetry. apply filter_no_score. intros u Hu Hk.
  assert (Hin : In k (sorted_reverse (map fst (fill sc urls [])))).
  { apply (Permutation_in _ (Permutation_sym (sorted_reverse_perm _))).
    apply keys_fill_In. right. now exists u. }
  apply existsb_eqb_In in Hin. congruence.
Qed.

End Ranking.

Lemma mem_In x l : mem x l = true <-> In x l.
Proof.
  unfold mem. rewrite existsb_exists. split.
  - intros (y & Hy & E). apply String.eqb_eq in E. now subst.
  - intros H. exists x. split; [assumption | apply String.eqb_refl].
Qed.

Lemma mem_false x l : mem x l = false <-> ~ In x l.
Proof.
  rewrite <- mem_In. destruct (mem x l); split; congruence.
Qed.

Lemma distinct_NoDup l : distinct l = true <-> NoDup l.
Proof.
  induction l as [|x r IH]; simpl.
  - split; [constructor | reflexivity].
  - rewrite andb_true_iff, negb_true_iff, mem_false, IH. split.
    + intros [H1 H2]. now constructor.
    + intros H. inversion H. now split.
Qed.

Lemma sort_urls_is_rank urls keywords :
  sort_urls_by_relevance urls keywords
  = rank (score (keywords_or_default keywords)) urls.
Proof. destruct keywords; reflexivity. Qed.

Lemma score_is_relevance keywords url :
  all_lowercase keywords = true -> distinct keywords = true ->
  score keywords url = relevance keywords url.
Proof.
  intros Hl Hd. unfold score, relevance.
  rewrite nodup_fixed_point by now apply distinct_NoDup.
  f_equal. apply filter_ext_in. intros k Hk.
  unfold all_lowercase in Hl. rewrite forallb_forall in Hl.
  specialize (Hl k Hk). apply String.eqb_eq in Hl.
  unfold occurs_ignoring_case. now rewrite Hl.
Qed.

Lemma ranked_by_ext sc sc' urls out :
  (forall u, sc u = sc' u) -> ranked_by sc urls out -> ranked_by sc' urls out.
Proof.
  intros E [Ho Hs]. split.
  - intros i j x y Hx Hy Hlt. rewrite <- !E in Hlt. eauto.
  - intros k.
    rewrite (filter_ext _ (fun u => sc u =? k)) by (intros; now rewrite E).
    rewrite Hs. apply filter_ext. intros u. now rewrite E.
Qed.

Lemma rank_ranked sc urls : ranked_by sc urls (rank sc urls).
Proof.
  split.
  - intros i j x y. apply rank_order.
  - apply rank_stable.
Qed.

(** C9: the ranked list is a permutation of the list given to the ranker:
    every URL occurs in it as many times as in the input, none is added
    and none is dropped, whatever the keyword list. *)
Theorem sort_urls_by_relevance_permutation :
  forall (urls : list string) (keywords : option (list string)),
    Permutation (sort_urls_by_relevance urls keywords) urls
    /\ (forall url,
          count_occ string_dec (sort_urls_by_relevance urls keywords) url
          = count_occ string_dec urls url).
Proof.
  intros urls keywords. rewrite sort_urls_is_rank.
  assert (P := rank_perm (score (keywords_or_default keywords)) urls).
  split; [exact P|].
  intros url. now apply (Permutation_count_occ string_dec).
Qed.

(** C3, as stated, fails on the keyword list [MAPS]: the URL
    [http://maps] contains the keyword when case is ignored, yet it is
    scored 0 and stays behind [http://a]. *)
Lemma ranks_by_relevance_uppercase_keyword :
  ~ ranks_by_relevance ["http://a"; "http://maps"] (Some ["MAPS"]).
Proof.
  intros [_ [Horder _]].
  specialize (Horder 1 0 "http://maps" "http://a" eq_refl eq_refl).
  vm_compute in Horder.
  specialize (Horder (le_n 1)). inversion Horder.
Qed.

(** C3, amended: for every list of URLs and every list of pairwise
    distinct lower-case keywords (the default list when none is given),
    the score of a URL is the number of distinct keywords that occur in
    it case-insensitively, every URL of score k stands strictly before
    every URL of a smaller score, and URLs of equal score keep the order
    in which they were given. *)
Theorem sort_urls_by_relevance_ranks :
  forall (urls : list string) (keywords : option (list string)),
    all_lowercase (keywords_or_default keywords) = true ->
    distinct (keywords_or_default keywords) = true ->
    ranks_by_relevance urls keywords.
Proof.
  intros urls keywords Hl Hd. split.
  - intros url. now apply score_is_relevance.
  - rewrite sort_urls_is_rank.
    apply (ranked_by_ext (score (keywords_or_default keywords))).
    + intros u. now apply score_is_relevance.
    + apply rank_ranked.
Qed.

Lemma sort_urls_by_relevance_ranks_witness :
  ranks_by_relevance
    ["http://a"; "https://maps.example.com/search"; "http://b/hotels"] None.
Proof.
  apply sort_urls_by_relevance_ranks; reflexivity.
Defined.

(** ** The trace extractor *)

Lemma extract_chain_of_thought_dict fields :
  extract_chain_of_thought (JDict fields) = (cot_trace fields, Ok (chain_of fields)).
Proof.
  unfold extract_chain_of_thought, cot_trace, chain_of. simpl.
  destruct (has_key "chain_of_thought" fields); reflexivity.
Qed.

(** C4, as stated, fails on a document that is not a mapping: the empty
    list has no field [chain_of_thought], the warning is printed, and
    the call of [get] raises. *)
Lemma warns_and_returns_empty_fails_on_list :
  ~ warns_and_returns_empty (JList []).
Proof.
  intros H. specialize (H eq_refl). discriminate H.
Qed.

(** C4, amended: for every document whose top level is a mapping,
    [extract_chain_of_thought] does not raise, and when the mapping has
    no field [chain_of_thought] it prints the warning and returns the
    empty sequence. *)
Theorem extract_chain_of_thought_absent :
  forall fields : list (string * json),
    (exists t chain, extract_chain_of_thought (JDict fields) = (t, Ok chain))
    /\ (has_key "chain_of_thought" fields = false ->
        extract_chain_of_thought (JDict fields)
        = ([Print cot_warning], Ok (JList []))).
Proof.
  intros fields. rewrite extract_chain_of_thought_dict. split.
  - eauto.
  - intros H. unfold cot_trace, chain_of, dict_get. rewrite H.
    unfold has_key in H.
    destruct (lookup "chain_of_thought" fields); [discriminate | reflexivity].
Qed.

Lemma extract_chain_of_thought_absent_witness :
  extract_chain_of_thought (JDict [("location", JStr "NYC")])
  = ([Print cot_warning], Ok (JList [])).
Proof.
  apply (extract_chain_of_thought_absent [("location", JStr "NYC")]).
  reflexivity.
Defined.


(** ** The run of [main] *)

Lemma extract_tool_executions_dict fields :
  extract_tool_executions (JDict fields)
  = (cot_trace fields, tool_execs_of fields).
Proof.
  unfold extract_tool_executions. rewrite extract_chain_of_thought_dict.
  unfold tool_execs_of, bind, lift.
  destruct (py_iter (chain_of fields)) as [steps|e]; simpl;
    rewrite ?app_nil_r; reflexivity.
Qed.

Lemma gather_not_dict rt json_data :
  (forall fields, json_data <> JDict fields) ->
  gather rt json_data = ([], Raise AttributeError).
Proof.
  intros H. destruct json_data; try reflexivity.
  exfalso. now apply (H fields).
Qed.

Lemma gather_dict rt fields :
  gather rt (JDict fields)
  = match tool_execs_of fields with
    | Raise e => (cot_trace fields ++ cot_trace fields, Raise e)
    | Ok tool_execs =>
        match flatten_all tool_execs with
        | Raise e => (cot_trace fields ++ cot_trace fields, Raise e)
        | Ok flats =>
            (cot_trace fields ++ cot_trace fields
               ++ no_urls_trace rt (JDict fields),
             Ok (gathered_of rt fields tool_execs flats))
        end
    end.
Proof.
  unfold gather. simpl py_get.
  rewrite extract_chain_of_thought_dict, extract_tool_executions_dict.
  unfold no_urls_trace, gathered_of, report_of, ranked_urls.
  unfold bind, lift, ret, emit.
  destruct (tool_execs_of fields) as [tool_execs|e]; simpl;
    [|rewrite ?app_nil_r; reflexivity].
  destruct (flatten_all tool_execs) as [flats|e]; simpl;
    [|rewrite ?app_nil_r; reflexivity].
  destruct (is_nil _); simpl; rewrite ?app_nil_r; reflexivity.
Qed.

Lemma saves_app t1 t2 : saves (t1 ++ t2) = saves t1 ++ saves t2.
Proof. apply filter_app. Qed.

Lemma saves_cot_trace fields : saves (cot_trace fields) = [].
Proof. unfold cot_trace. now destruct (has_key _ fields). Qed.

Lemma saves_no_urls_trace rt json_data : saves (no_urls_trace rt json_data) = [].
Proof. unfold no_urls_trace. now destruct (is_nil _). Qed.

Lemma gather_saves rt json_data : saves (fst (gather rt json_data)) = [].
Proof.
  destruct json_data; try reflexivity.
  rewrite gather_dict.
  destruct (tool_execs_of fields) as [tool_execs|e]; simpl.
  - destruct (flatten_all tool_execs) as [flats|e]; simpl;
      now rewrite !saves_app, ?saves_cot_trace, ?saves_no_urls_trace.
  - now rewrite saves_app, saves_cot_trace.
Qed.

Lemma prepare_folder_saves rt output_folder :
  saves (fst (prepare_folder rt output_folder)) = [].
Proof.
  destruct output_folder as [folder|]; simpl; [|reflexivity].
  destruct (path_exists rt folder); [reflexivity|].
  unfold bind, emit, raise, ret.
  now destruct (makedirs_error rt folder).
Qed.

Lemma write_outputs_run rt folder g :
  snd (write_outputs rt folder g) = Ok tt
  /\ saves (fst (write_outputs rt folder g)) = expected_saves folder g.
Proof.
  unfold write_outputs, expected_saves, save_to_json, save_to_csv, url_rows.
  unfold bind, emit, ret.
  destruct (write_error rt (path_join folder "extracted_data.json"));
    destruct (flat_tool_execs g) as [|first flats];
    destruct (sorted_urls g) as [|url urls];
    destruct (write_error rt (path_join folder "tool_executions.csv"));
    destruct (write_error rt (path_join folder "urls.csv"));
    split; reflexivity.
Qed.

(** [main], step by step: the folder, the load check, the extraction,
    the writes. *)
Lemma main_run rt input_file output_folder :
  main rt input_file output_folder
  = match prepare_folder rt output_folder with
    | (tp, Raise e) => (tp, Raise e)
    | (tp, Ok folder) =>
        match json_load rt input_file with
        | LoadError e =>
            (tp ++ [Print ("Error loading JSON file: " ++ e)%string],
             Ok EarlyReturn)
        | Loaded json_data =>
            if truthy json_data then
              match gather rt json_data with
              | (tg, Raise e) => (tp ++ tg, Raise e)
              | (tg, Ok g) =>
                  (tp ++ tg ++ fst (write_outputs rt folder g), Ok Completed)
              end
            else (tp, Ok EarlyReturn)
        end
    end.
Proof.
  unfold main, load_json.
  destruct (prepare_folder rt output_folder) as [tp [folder|e]];
    [|reflexivity].
  unfold bind at 1.
  destruct (json_load rt input_file) as [e|json_data].
  - simpl. reflexivity.
  - simpl. destruct (truthy json_data); simpl.
    + destruct (gather rt json_data) as [tg [g|e]]; simpl; [|reflexivity].
      destruct (write_outputs_run rt folder g) as [Hr _].
      destruct (write_outputs rt folder g) as [tw r]. simpl in *. subst r.
      now rewrite app_nil_r.
    + now rewrite app_nil_r.
Qed.

Lemma prepare_folder_ready rt output_folder :
  folder_ready rt output_folder = true ->
  exists tp, prepare_folder rt output_folder = (tp, Ok (folder_of output_folder)).
Proof.
  destruct output_folder as [folder|]; simpl; [|now exists []].
  destruct (path_exists rt folder); simpl; [now exists []|].
  unfold bind, emit, ret, raise.
  destruct (makedirs_error rt folder); [discriminate|].
  intros _. now eexists.
Qed.

Lemma prepare_folder_folder rt output_folder tp folder :
  prepare_folder rt output_folder = (tp, Ok folder) ->
  folder = folder_of output_folder.
Proof.
  destruct output_folder as [f|]; simpl.
  - destruct (path_exists rt f); [intros [= _ <-]; reflexivity|].
    unfold bind, emit, ret, raise.
    destruct (makedirs_error rt f); [discriminate|].
    intros [= _ <-]. reflexivity.
  - intros [= _ <-]. reflexivity.
Qed.

(** The write attempts of a run. *)
Lemma main_saves rt input_file output_folder :
  saves (fst (main rt input_file output_folder))
  = match prepare_folder rt output_folder with
    | (_, Ok folder) =>
        match json_load rt input_file with
        | Loaded json_data =>
            if truthy json_data then
              match gather rt json_data with
              | (_, Ok g) => expected_saves folder g
              | _ => []
              end
            else []
        | _ => []
        end
    | _ => []
    end.
Proof.
  rewrite main_run.
  assert (Hp := prepare_folder_saves rt output_folder).
  destruct (prepare_folder rt output_folder) as [tp [folder|e]];
    simpl in Hp; [|exact Hp].
  destruct (json_load rt input_file) as [e|json_data]; simpl.
  - now rewrite saves_app, Hp.
  - destruct (truthy json_data); simpl; [|exact Hp].
    assert (Hg := gather_saves rt json_data).
    destruct (gather rt json_data) as [tg [g|e]]; simpl in *.
    + rewrite !saves_app, Hp, Hg. simpl.
      apply write_outputs_run.
    + now rewrite saves_app, Hp, Hg.
Qed.

Lemma In_saves ev t : In ev (saves t) <-> In ev t /\ is_save ev = true.
Proof. apply filter_In. Qed.

Lemma truthy_false json_data :
  truthy json_data = false <-> falsy_document json_data.
Proof.
  unfold falsy_document. split.
  - destruct json_data as [|b|n|s|l|f]; simpl; intros H.
    + auto.
    + subst b. auto.
    + apply negb_false_iff, Z.eqb_eq in H. subst n. auto.
    + apply negb_false_iff, String.eqb_eq in H. subst s. auto 6.
    + destruct l; [auto 6 | discriminate].
    + destruct f; [auto 7 | discriminate].
  - intros [->|[->|[->|[->|[->| ->]]]]]; reflexivity.
Qed.

Lemma collect_steps_ok steps tool_execs :
  forallb step_ok steps = true ->
  collect_steps steps tool_execs
  = Ok (tool_execs ++ flat_map records_of_step steps).
Proof.
  revert tool_execs.
  induction steps as [|step steps IH]; intros tool_execs H; simpl.
  - now rewrite app_nil_r.
  - simpl in H. apply andb_true_iff in H. destruct H as [Hs Hr].
    destruct step as [| | | | |f]; try discriminate.
    simpl. unfold has_key.
    simpl in Hs.
    destruct (lookup "tool_executions" f) as [[| | | |execs|]|];
      try discriminate; simpl.
    + rewrite IH by assumption. now rewrite app_assoc.
    + now rewrite IH.
Qed.

Lemma flatten_all_length tool_execs flats :
  flatten_all tool_execs = Ok flats ->
  List.length flats = List.length tool_execs.
Proof.
  revert flats.
  induction tool_execs as [|x r IH]; simpl; intros flats H.
  - now inversion H.
  - destruct (flatten_tool_execution x) as [flat|e]; simpl in H;
      [|discriminate].
    destruct (flatten_all r) as [fl|e]; simpl in H; [|discriminate].
    inversion H. simpl. f_equal. now apply IH.
Qed.

Lemma flatten_all_dicts tool_execs :
  forallb is_dict tool_execs = true ->
  exists flats, flatten_all tool_execs = Ok flats.
Proof.
  induction tool_execs as [|x r IH]; simpl; intros H; [now eexists|].
  apply andb_true_iff in H. destruct H as [Hx Hr].
  destruct (IH Hr) as [fl Hfl]. rewrite Hfl.
  destruct x; try discriminate. simpl. now eexists.
Qed.

Lemma tool_execs_of_shaped fields steps :
  chain_of fields = JList steps ->
  forallb step_ok steps = true ->
  tool_execs_of fields = Ok (flat_map records_of_step steps).
Proof.
  intros Hc Hs. unfold tool_execs_of. rewrite Hc. simpl.
  now rewrite collect_steps_ok.
Qed.

Lemma gather_shaped rt fields :
  trace_shaped fields = true ->
  exists tg g, gather rt (JDict fields) = (tg, Ok g).
Proof.
  unfold trace_shaped. intros H.
  destruct (chain_of fields) as [| | | |steps|] eqn:Hc; try discriminate.
  apply andb_true_iff in H. destruct H as [Hs Hd].
  rewrite gather_dict, (tool_execs_of_shaped _ _ Hc Hs).
  destruct (flatten_all_dicts _ Hd) as [flats ->].
  now do 2 eexists.
Qed.

Lemma main_past_check rt input_file output_folder json_data :
  folder_ready rt output_folder = true ->
  json_load rt input_file = Loaded json_data ->
  truthy json_data = true ->
  match gather rt json_data with
  | (_, Ok g) =>
      snd (main rt input_file output_folder) = Ok Completed
      /\ saves (fst (main rt input_file output_folder))
         = expected_saves (folder_of output_folder) g
  | (_, Raise e) =>
      snd (main rt input_file output_folder) = Raise e
      /\ saves (fst (main rt input_file output_folder)) = []
  end.
Proof.
  intros Hf Hl Ht.
  rewrite main_saves, main_run.
  destruct (prepare_folder_ready _ _ Hf) as [tp ->].
  rewrite Hl, Ht.
  destruct (gather rt json_data) as [tg [g|e]]; simpl; auto.
Qed.

Lemma main_at_check rt input_file output_folder :
  folder_ready rt output_folder = true ->
  match json_load rt input_file with
  | LoadError _ => True
  | Loaded json_data => truthy json_data = false
  end ->
  snd (main rt input_file output_folder) = Ok EarlyReturn
  /\ saves (fst (main rt input_file output_folder)) = [].
Proof.
  intros Hf Hl.
  rewrite main_saves, main_run.
  destruct (prepare_folder_ready _ _ Hf) as [tp ->].
  destruct (json_load rt input_file) as [e|json_data]; simpl; [auto|].
  rewrite Hl. auto.
Qed.

Lemma expected_saves_report folder g :
  In (SaveJson (path_join folder "extracted_data.json") (output_data g))
     (expected_saves folder g).
Proof. now left. Qed.

(** C1, as stated, fails on a file that holds the empty mapping: it
    parses, and the run still returns at the load check. *)
Lemma aborts_only_on_load_failure_empty_mapping :
  ~ aborts_only_on_load_failure (quiet_runtime (JDict [])) "input.json" None.
Proof.
  intros H. destruct (H (JDict []) eq_refl) as [Hne _].
  apply Hne. reflexivity.
Qed.

(** C1, amended: the run returns early at the load check, with no output
    written, if and only if what [load_json] returns is falsy: nothing,
    after a load failure, or a parsed document that is null, false, 0,
    the empty string, the empty sequence or the empty mapping.  For
    every other parsed document [main] goes past the check to the
    metadata extraction, and then either attempts to write the JSON
    report or stops on an exception raised by the extraction, nothing
    being written; the write is attempted whenever the document is a
    non-empty mapping whose trace has the expected shape. *)
Theorem main_returns_early_iff_no_data :
  forall (rt : runtime) (input_file : string) (output_folder : option string),
    folder_ready rt output_folder = true ->
    let run := main rt input_file output_folder in
    let report_path := path_join (folder_of output_folder) "extracted_data.json" in
    (snd run = Ok EarlyReturn
     <-> (exists e, json_load rt input_file = LoadError e)
         \/ (exists json_data,
               json_load rt input_file = Loaded json_data
               /\ falsy_document json_data))
    /\ (snd run = Ok EarlyReturn -> saves (fst run) = [])
    /\ (forall json_data,
          json_load rt input_file = Loaded json_data ->
          ~ falsy_document json_data ->
          (snd run = Ok Completed
           /\ exists report, In (SaveJson report_path report) (fst run))
          \/ (exists e, snd run = Raise e
                        /\ snd (gather rt json_data) = Raise e
                        /\ saves (fst run) = []))
    /\ (forall fields,
          json_load rt input_file = Loaded (JDict fields) ->
          fields <> [] ->
          trace_shaped fields = true ->
          snd run = Ok Completed
          /\ exists report, In (SaveJson report_path report) (fst run)).
Proof.
  intros rt input_file output_folder Hf run report_path.
  assert (Hpast : forall json_data,
             json_load rt input_file = Loaded json_data ->
             truthy json_data = true ->
             (snd run = Ok Completed
              /\ exists report, In (SaveJson report_path report) (fst run))
             \/ (exists e, snd run = Raise e
                           /\ snd (gather rt json_data) = Raise e
                           /\ saves (fst run) = [])).
  { intros json_data Hl Ht.
    assert (H := main_past_check rt input_file output_folder json_data Hf Hl Ht).
    destruct (gather rt json_data) as [tg [g|e]]; destruct H as [Hr Hs].
    - left. split; [exact Hr|].
      exists (output_data g).
      apply (In_saves _ (fst run)). unfold run. rewrite Hs.
      apply expected_saves_report.
    - right. exists e. auto. }
  assert (Hiff : snd run = Ok EarlyReturn
     <-> (exists e, json_load rt input_file = LoadError e)
         \/ (exists json_data,
               json_load rt input_file = Loaded json_data
               /\ falsy_document json_data)).
  { split.
    - intros Hr.
      destruct (json_load rt input_file) as [e|json_data] eqn:Hl;
        [left; now exists e|].
      right. exists json_data. split; [reflexivity|].
      apply truthy_false.
      destruct (truthy json_data) eqn:Ht; [|reflexivity].
      destruct (Hpast json_data eq_refl Ht) as [[Hc _]|(e & He & _)];
        congruence.
    - intros H. apply main_at_check; [assumption|].
      destruct H as [(e & ->)|(json_data & -> & Hd)]; [exact I|].
      now apply truthy_false. }
  split; [exact Hiff|]. split; [|split].
  - intros Hr. apply main_at_check; [assumption|].
    apply Hiff in Hr.
    destruct Hr as [(e & ->)|(json_data & -> & Hd)]; [exact I|].
    now apply truthy_false.
  - intros json_data Hl Hn. apply Hpast; [assumption|].
    destruct (truthy json_data) eqn:Ht; [reflexivity|].
    exfalso. now apply Hn, truthy_false.
  - intros fields Hl Hne Hs.
    assert (Ht : truthy (JDict fields) = true)
      by (destruct fields; [congruence | reflexivity]).
    destruct (Hpast _ Hl Ht) as [H|(e & _ & Hg & _)]; [exact H|].
    destruct (gather_shaped rt fields Hs) as (tg & g & Hgs).
    rewrite Hgs in Hg. discriminate.
Qed.

Lemma main_returns_early_iff_no_data_witness :
  snd (main (quiet_runtime (JDict [])) "input.json" (Some "out"))
  = Ok EarlyReturn
  <-> (exists e,
         json_load (quiet_runtime (JDict [])) "input.json" = LoadError e)
      \/ (exists json_data,
            json_load (quiet_runtime (JDict [])) "input.json" = Loaded json_data
            /\ falsy_document json_data).
Proof.
  apply (main_returns_early_iff_no_data
           (quiet_runtime (JDict [])) "input.json" (Some "out")).
  reflexivity.
Defined.

Lemma lists_set_singleton u out : lists_set [u] out = true -> out = [u].
Proof.
  unfold lists_set. rewrite !andb_true_iff. intros [[Hd Hsub] Hsup].
  simpl in Hsup. rewrite andb_true_r in Hsup. apply mem_In in Hsup.
  rewrite forallb_forall in Hsub.
  assert (Hall : forall x, In x out -> x = u).
  { intros x Hx. specialize (Hsub x Hx). apply mem_In in Hsub.
    destruct Hsub as [->|[]]. reflexivity. }
  destruct out as [|x r]; [destruct Hsup|].
  rewrite (Hall x) in * by now left.
  f_equal. destruct r as [|y r]; [reflexivity|].
  simpl in Hd. apply andb_true_iff in Hd. destruct Hd as [Hd _].
  rewrite (Hall y) in Hd by (right; now left).
  simpl in Hd. now rewrite String.eqb_refl in Hd.
Qed.

(** C5: on the example document of the specification the run completes
    and writes a JSON report whose [metadata.location] is NYC, whose
    [tool_executions] has one element and whose [sorted_urls] is the one
    URL of the notes; that URL scores 2, for the keywords flights and
    search. *)
Theorem main_end_to_end_example :
  forall (rt : runtime) (input_file : string) (output_folder : option string),
    folder_ready rt output_folder = true ->
    json_load rt input_file = Loaded example_document ->
    set_order_ok rt (search example_document) = true ->
    exists report metadata tool_execs,
      snd (main rt input_file output_folder) = Ok Completed
      /\ In (SaveJson (path_join (folder_of output_folder) "extracted_data.json")
                      report)
            (fst (main rt input_file output_folder))
      /\ py_getitem report "metadata" = Ok metadata
      /\ py_getitem metadata "location" = Ok (JStr "NYC")
      /\ py_getitem report "tool_executions" = Ok (JList tool_execs)
      /\ List.length tool_execs = 1
      /\ py_getitem report "sorted_urls" = Ok (JList [JStr example_url])
      /\ score default_keywords example_url = 2
      /\ filter (fun keyword => str_contains keyword (lower example_url))
                default_keywords
         = ["flights"; "search"].
Proof.
  intros rt input_file output_folder Hf Hl Hs.
  assert (Hu : extract_urls rt example_document = [example_url]).
  { unfold extract_urls, list_of_set. apply lists_set_singleton.
    exact Hs. }
  assert (H := main_past_check rt input_file output_folder _ Hf Hl eq_refl).
  unfold example_document in H. rewrite gather_dict in H.
  change (tool_execs_of _) with
    (Ok [JDict [("tool_name", JStr "flights"); ("params", JDict []);
                ("output", JList [JInt 1])]]) in H.
  cbv iota beta in H.
  change (flatten_all _) with
    (Ok [JDict [("tool_name", JStr "flights"); ("method_name", JStr "");
                ("params", JStr "{}"); ("output", JStr "[1]")]]) in H.
  cbv iota beta in H. destruct H as [Hr Hsv].
  eexists _, _, _. split; [exact Hr|]. split.
  { apply In_saves. rewrite Hsv. apply expected_saves_report. }
  unfold gathered_of, report_of, ranked_urls. simpl output_data.
  fold example_document. rewrite Hu.
  repeat split; reflexivity.
Qed.

Lemma main_end_to_end_example_witness :
  exists report metadata tool_execs,
    snd (main (quiet_runtime example_document) "input.json" None) = Ok Completed
    /\ In (SaveJson "./extracted_data.json" report)
          (fst (main (quiet_runtime example_document) "input.json" None))
    /\ py_getitem report "metadata" = Ok metadata
    /\ py_getitem metadata "location" = Ok (JStr "NYC")
    /\ py_getitem report "tool_executions" = Ok (JList tool_execs)
    /\ List.length tool_execs = 1
    /\ py_getitem report "sorted_urls" = Ok (JList [JStr example_url])
    /\ score default_keywords example_url = 2
    /\ filter (fun keyword => str_contains keyword (lower example_url))
              default_keywords
       = ["flights"; "search"].
Proof.
  apply (main_end_to_end_example
           (quiet_runtime example_document) "input.json" None);
    reflexivity.
Defined.

Lemma append_cancel_l (a x y : string) :
  (a ++ x)%string = (a ++ y)%string -> x = y.
Proof.
  induction a as [|c a IH]; simpl; intros H; [exact H|].
  inversion H. now apply IH.
Qed.

Lemma path_join_inj folder a b : path_join folder a = path_join folder b -> a = b.
Proof.
  unfold path_join.
  destruct (String.eqb folder "" || ends_with_slash folder); intros H.
  - now apply append_cancel_l in H.
  - apply append_cancel_l in H. now inversion H.
Qed.

Lemma gather_ok_inv rt json_data tg g :
  gather rt json_data = (tg, Ok g) ->
  exists fields tool_execs flats,
    json_data = JDict fields
    /\ tool_execs_of fields = Ok tool_execs
    /\ flatten_all tool_execs = Ok flats
    /\ g = gathered_of rt fields tool_execs flats.
Proof.
  destruct json_data as [| | | | |fields]; try discriminate.
  rewrite gather_dict.
  destruct (tool_execs_of fields) as [tool_execs|e] eqn:Hte; [|discriminate].
  destruct (flatten_all tool_execs) as [flats|e] eqn:Hfl; [|discriminate].
  intros [= _ <-]. now exists fields, tool_execs, flats.
Qed.

Lemma sort_urls_nil urls keywords :
  sort_urls_by_relevance urls keywords = [] <-> urls = [].
Proof.
  rewrite sort_urls_is_rank.
  assert (P := rank_perm (score (keywords_or_default keywords)) urls).
  split; intros H.
  - rewrite H in P. now apply Permutation_nil in P.
  - subst urls. symmetry in P. now apply Permutation_nil in P.
Qed.

Lemma has_key_lookup key fields v :
  lookup key fields = Some v -> has_key key fields = true.
Proof. unfold has_key. now intros ->. Qed.

Lemma expected_saves_json folder g path report :
  In (SaveJson path report) (expected_saves folder g) ->
  path = path_join folder "extracted_data.json" /\ report = output_data g.
Proof.
  unfold expected_saves. intros [H|H].
  - inversion H. now split.
  - apply in_app_or in H. destruct H as [H|H].
    + destruct (flat_tool_execs g); [destruct H|].
      destruct H as [H|[]]. discriminate.
    + destruct (is_nil (sorted_urls g)); [destruct H|].
      destruct H as [H|[]]. discriminate.
Qed.

Lemma expected_saves_csv folder g path headers rows :
  In (SaveCsv path headers rows) (expected_saves folder g) ->
  (path = path_join folder "tool_executions.csv" /\ flat_tool_execs g <> [])
  \/ (path = path_join folder "urls.csv" /\ sorted_urls g <> []).
Proof.
  unfold expected_saves. simpl. rewrite in_app_iff.
  intros [H|[H|H]]; [discriminate| |].
  - destruct (flat_tool_execs g) as [|first r]; [destruct H|].
    destruct H as [H|[]]. inversion H. left. split; [reflexivity|discriminate].
  - destruct (sorted_urls g) as [|u r]; [destruct H|].
    destruct H as [H|[]]. inversion H. right. split; [reflexivity|discriminate].
Qed.

Lemma expected_saves_tool_csv folder g :
  flat_tool_execs g <> [] ->
  exists headers rows,
    In (SaveCsv (path_join folder "tool_executions.csv") headers rows)
       (expected_saves folder g).
Proof.
  intros H. unfold expected_saves.
  destruct (flat_tool_execs g) as [|first r]; [congruence|].
  do 2 eexists. right. apply in_or_app. left. now left.
Qed.

Lemma expected_saves_urls_csv folder g :
  sorted_urls g <> [] ->
  exists headers rows,
    In (SaveCsv (path_join folder "urls.csv") headers rows)
       (expected_saves folder g).
Proof.
  intros H. unfold expected_saves.
  destruct (sorted_urls g) as [|u r]; [congruence|].
  do 2 eexists. right. apply in_or_app. right. now left.
Qed.

(** C7, as stated, fails on a mapping step whose field [tool_executions]
    is not a sequence: for [null] the loop over the field raises
    [TypeError] and nothing is returned. *)
Lemma returns_step_records_fails_on_null_field :
  ~ returns_step_records
      (JDict [("chain_of_thought",
               JList [JDict [("tool_executions", JNull)]])]).
Proof.
  intros H. specialize (H _ _ eq_refl eq_refl eq_refl). discriminate H.
Qed.

(** C7, amended: when the chain of thought of a document is a sequence of
    mapping steps, the tool executions of a step, where it has the
    field, being a sequence,
    [extract_tool_executions] returns the records of all steps, step
    after step and in the order of each step, steps without the field
    contributing nothing; every report that [main] writes for the
    document carries exactly these records under [tool_executions], and
    [main] does write it when the records are mappings. *)
Theorem extract_tool_executions_flat :
  forall (fields : list (string * json)) (steps : list json),
    lookup "chain_of_thought" fields = Some (JList steps) ->
    forallb step_ok steps = true ->
    let records := flat_map records_of_step steps in
    extract_tool_executions (JDict fields) = ([], Ok records)
    /\ (forall rt input_file output_folder path report,
          json_load rt input_file = Loaded (JDict fields) ->
          In (SaveJson path report) (fst (main rt input_file output_folder)) ->
          py_getitem report "tool_executions" = Ok (JList records))
    /\ (forall rt input_file output_folder,
          json_load rt input_file = Loaded (JDict fields) ->
          folder_ready rt output_folder = true ->
          forallb is_dict records = true ->
          exists report,
            In (SaveJson
                  (path_join (folder_of output_folder) "extracted_data.json")
                  report)
               (fst (main rt input_file output_folder))
            /\ py_getitem report "tool_executions" = Ok (JList records)).
Proof.
  intros fields steps Hc Hs records.
  assert (Hchain : chain_of fields = JList steps).
  { unfold chain_of, dict_get. now rewrite Hc. }
  assert (Hte : tool_execs_of fields = Ok records).
  { now apply tool_execs_of_shaped. }
  assert (Htr : truthy (JDict fields) = true).
  { destruct fields; [discriminate | reflexivity]. }
  split; [|split].
  - rewrite extract_tool_executions_dict, Hte. unfold cot_trace.
    now rewrite (has_key_lookup _ _ _ Hc).
  - intros rt input_file output_folder path report Hl Hin.
    assert (Hsv : In (SaveJson path report)
                     (saves (fst (main rt input_file output_folder)))).
    { now apply In_saves. }
    rewrite main_saves, Hl, Htr in Hsv.
    destruct (prepare_folder rt output_folder) as [tp [folder|e]];
      [|destruct Hsv].
    destruct (gather rt (JDict fields)) as [tg [g|e]] eqn:Hg; [|destruct Hsv].
    apply expected_saves_json in Hsv. destruct Hsv as [_ ->].
    apply gather_ok_inv in Hg.
    destruct Hg as (fields' & tool_execs & flats & [= <-] & Hte' & _ & ->).
    rewrite Hte in Hte'. inversion Hte'. reflexivity.
  - intros rt input_file output_folder Hl Hf Hd.
    assert (H := main_past_check rt input_file output_folder _ Hf Hl Htr).
    rewrite gather_dict, Hte in H.
    destruct (flatten_all_dicts _ Hd) as [flats Hfl]. rewrite Hfl in H.
    destruct H as [_ Hsv].
    exists (report_of rt fields records). split; [|reflexivity].
    apply In_saves. rewrite Hsv.
    apply (expected_saves_report _ (gathered_of rt fields records flats)).
Qed.

Lemma extract_tool_executions_flat_witness :
  extract_tool_executions (JDict four_step_fields)
  = ([], Ok [JDict [("tool_name", JStr "maps")];
             JDict [("tool_name", JStr "flights");
                    ("output", JList [JInt 1])];
             JDict [("tool_name", JStr "hotels")]]).
Proof.
  apply (extract_tool_executions_flat four_step_fields
           [JDict [("thought", JStr "look up");
                   ("tool_executions",
                    JList [JDict [("tool_name", JStr "maps")];
                           JDict [("tool_name", JStr "flights");
                                  ("output", JList [JInt 1])]])];
            JDict [("thought", JStr "think")];
            JDict [("tool_executions", JList [])];
            JDict [("tool_executions",
                    JList [JDict [("tool_name", JStr "hotels")]])]]);
    reflexivity.
Defined.

Lemma extract_tool_executions_result fields tool_execs :
  snd (extract_tool_executions (JDict fields)) = Ok tool_execs ->
  tool_execs_of fields = Ok tool_execs.
Proof. now rewrite extract_tool_executions_dict. Qed.

(** C8, as stated, fails on a run in which the extraction raises: the
    document below holds a URL and one tool-execution record, the number
    5; flattening that record raises [AttributeError], and no CSV write
    is attempted. *)
Lemma csv_writes_match_sources_fails_on_number_record :
  ~ csv_writes_match_sources (quiet_runtime number_record_document)
      "input.json" None number_record_document.
Proof.
  intros (_ & Hu & _).
  destruct Hu as (headers & rows & Hin); [discriminate|].
  vm_compute in Hin. destruct Hin.
Qed.

(** C8, amended: in a run that has passed the load check, the write of
    [urls.csv] is not attempted when no URL was discovered, and the
    write of [tool_executions.csv] is not attempted when no
    tool-execution record was found; when the extraction ends without
    an exception, a non-empty list of URLs and a non-empty list of
    records have their CSV write attempted, and it does end so for every
    mapping whose trace has the expected shape, the records being
    mappings; a run in which the extraction raises attempts no write. *)
Theorem csv_writes_follow_sources :
  forall (rt : runtime) (input_file : string) (output_folder : option string)
         (json_data : json),
    folder_ready rt output_folder = true ->
    json_load rt input_file = Loaded json_data ->
    truthy json_data = true ->
    let t := fst (main rt input_file output_folder) in
    let folder := folder_of output_folder in
    (extract_urls rt json_data = [] -> ~ csv_attempted t folder "urls.csv")
    /\ (forall tool_execs,
          snd (extract_tool_executions json_data) = Ok tool_execs ->
          tool_execs = [] ->
          ~ csv_attempted t folder "tool_executions.csv")
    /\ (forall tg g,
          gather rt json_data = (tg, Ok g) ->
          (extract_urls rt json_data <> [] -> csv_attempted t folder "urls.csv")
          /\ (forall tool_execs,
                snd (extract_tool_executions json_data) = Ok tool_execs ->
                tool_execs <> [] ->
                csv_attempted t folder "tool_executions.csv"))
    /\ (forall fields,
          json_data = JDict fields -> trace_shaped fields = true ->
          exists tg g, gather rt json_data = (tg, Ok g))
    /\ (forall tg e, gather rt json_data = (tg, Raise e) -> saves t = []).
Proof.
  intros rt input_file output_folder json_data Hf Hl Ht t folder.
  assert (H := main_past_check rt input_file output_folder _ Hf Hl Ht).
  assert (Hcsv : forall name, csv_attempted t folder name ->
            exists tg g, gather rt json_data = (tg, Ok g)
              /\ ((name = "tool_executions.csv" /\ flat_tool_execs g <> [])
                  \/ (name = "urls.csv" /\ sorted_urls g <> []))).
  { intros name (headers & rows & Hin).
    assert (Hsv : In (SaveCsv (path_join folder name) headers rows) (saves t))
      by now apply In_saves.
    destruct (gather rt json_data) as [tg [g|e]]; destruct H as [_ Hs];
      unfold t in Hsv; rewrite Hs in Hsv; [|destruct Hsv].
    exists tg, g. split; [reflexivity|].
    apply expected_saves_csv in Hsv.
    destruct Hsv as [[Hp Hne]|[Hp Hne]]; apply path_join_inj in Hp; auto. }
  split; [|split; [|split; [|split]]].
  - intros Hu Hatt. destruct (Hcsv _ Hatt) as (tg & g & Hg & Hcase).
    destruct Hcase as [[Hn _]|[_ Hne]]; [discriminate|].
    apply gather_ok_inv in Hg.
    destruct Hg as (fields & tool_execs & flats & -> & _ & _ & ->).
    apply Hne. simpl. unfold ranked_urls. now apply sort_urls_nil.
  - intros tool_execs Hte -> Hatt.
    destruct (Hcsv _ Hatt) as (tg & g & Hg & Hcase).
    destruct Hcase as [[_ Hne]|[Hn _]]; [|discriminate].
    apply gather_ok_inv in Hg.
    destruct Hg as (fields & tool_execs & flats & -> & Hte' & Hfl & ->).
    apply extract_tool_executions_result in Hte.
    rewrite Hte in Hte'. inversion Hte'; subst tool_execs.
    apply flatten_all_length in Hfl. apply Hne. simpl.
    destruct flats; [reflexivity | discriminate].
  - intros tg g Hg. rewrite Hg in H. destruct H as [_ Hs].
    apply gather_ok_inv in Hg.
    destruct Hg as (fields & tool_execs & flats & -> & Hte' & Hfl & ->).
    split.
    + intros Hne.
      destruct (expected_saves_urls_csv folder
                  (gathered_of rt fields tool_execs flats))
        as (headers & rows & Hin).
      { simpl. unfold ranked_urls. now rewrite sort_urls_nil. }
      exists headers, rows. apply (In_saves _ t). unfold t. now rewrite Hs.
    + intros tool_execs' Hte Hne.
      apply extract_tool_executions_result in Hte.
      rewrite Hte in Hte'. inversion Hte'; subst tool_execs'.
      destruct (expected_saves_tool_csv folder
                  (gathered_of rt fields tool_execs flats))
        as (headers & rows & Hin).
      { simpl. apply flatten_all_length in Hfl.
        destruct flats; [|discriminate].
        destruct tool_execs; [congruence | discriminate]. }
      exists headers, rows. apply (In_saves _ t). unfold t. now rewrite Hs.
  - intros fields -> Hsh. now apply gather_shaped.
  - intros tg e Hg. rewrite Hg in H. apply H.
Qed.

Lemma csv_writes_follow_sources_witness :
  ~ csv_attempted
      (fst (main (quiet_runtime (JDict [("location", JStr "NYC")]))
                 "input.json" None))
      "." "urls.csv"
  /\ ~ csv_attempted
        (fst (main (quiet_runtime (JDict [("location", JStr "NYC")]))
                   "input.json" None))
        "." "tool_executions.csv"
  /\ csv_attempted
       (fst (main (quiet_runtime example_document) "input.json" None))
       "." "urls.csv"
  /\ csv_attempted
       (fst (main (quiet_runtime example_document) "input.json" None))
       "." "tool_executions.csv".
Proof.
  assert (Hempty := csv_writes_follow_sources
                      (quiet_runtime (JDict [("location", JStr "NYC")]))
                      "input.json" None (JDict [("location", JStr "NYC")])
                      eq_refl eq_refl eq_refl).
  assert (Hfull := csv_writes_follow_sources
                     (quiet_runtime example_document)
                     "input.json" None example_document
                     eq_refl eq_refl eq_refl).
  destruct Hempty as (Hu & Hr & _).
  destruct Hfull as (_ & _ & Hsome & Hshaped & _).
  destruct (Hshaped _ eq_refl eq_refl) as (tg & g & Hg).
  destruct (Hsome tg g Hg) as (Hu' & Hr').
  split; [|split; [|split]].
  - apply Hu. reflexivity.
  - apply (Hr []); reflexivity.
  - apply Hu'. discriminate.
  - apply (Hr' [JDict [("tool_name", JStr "flights"); ("params", JDict []);
                       ("output", JList [JInt 1])]]);
      [reflexivity | discriminate].
Defined.

(** ** Strings *)

Lemma append_nil_r (s : string) : (s ++ "")%string = s.
Proof. induction s; simpl; congruence. Qed.

Lemma append_assoc (a b c : string) :
  ((a ++ b) ++ c)%string = (a ++ b ++ c)%string.
Proof. induction a; simpl; congruence. Qed.

Lemma length_append (a b : string) :
  String.length (a ++ b) = String.length a + String.length b.
Proof. induction a; simpl; congruence. Qed.

Lemma append_eq_nil (a b : string) :
  (a ++ b)%string = EmptyString -> a = EmptyString /\ b = EmptyString.
Proof. destruct a; simpl; [auto | discriminate]. Qed.

(** Two ways of cutting one string. *)
Lemma append_eq_append (a b c d : string) :
  (a ++ b)%string = (c ++ d)%string ->
  (exists e, a = (c ++ e)%string /\ d = (e ++ b)%string)
  \/ (exists e, c = (a ++ e)%string /\ b = (e ++ d)%string).
Proof.
  revert c. induction a as [|x a IH]; intros c H; simpl in H.
  - right. now exists c.
  - destruct c as [|y c]; simpl in H.
    + left. exists (String x a). now subst d.
    + inversion H as [[Hxy Hr]]. destruct (IH _ Hr) as [(e & -> & ->)|(e & -> & ->)].
      * left. now exists e.
      * right. now exists e.
Qed.

Lemma strip_spec p s r : strip p s = Some r <-> s = (p ++ r)%string.
Proof.
  revert s. induction p as [|a p IH]; intros s; simpl.
  - split; [intros [= ->] | intros ->]; reflexivity.
  - destruct s as [|b s].
    + split; discriminate.
    + destruct (Ascii.eqb_spec a b) as [->|Hne].
      * rewrite IH. split; [intros ->; reflexivity | now intros [= ->]].
      * split; [discriminate | intros [= E _]; congruence].
Qed.

Lemma strip_append p r : strip p (p ++ r) = Some r.
Proof. now apply strip_spec. Qed.

Lemma all_nonspace_append a b :
  all_nonspace (a ++ b) = all_nonspace a && all_nonspace b.
Proof.
  induction a as [|c a IH]; simpl; [reflexivity|].
  now rewrite IH, andb_assoc.
Qed.

Lemma span_nonspace_spec s run rest :
  span_nonspace s = (run, rest) ->
  s = (run ++ rest)%string /\ all_nonspace run = true /\ ends_run rest = true.
Proof.
  revert run rest. induction s as [|c s IH]; simpl; intros run rest H.
  - now inversion H.
  - destruct (is_space c) eqn:E.
    + inversion H; subst. simpl. now rewrite E.
    + destruct (span_nonspace s) as [run' rest'].
      inversion H; subst. destruct (IH _ _ eq_refl) as (-> & Ha & He).
      simpl. now rewrite E, Ha.
Qed.

Lemma span_nonspace_append run rest :
  all_nonspace run = true ->
  span_nonspace (run ++ rest)
  = ((run ++ fst (span_nonspace rest))%string, snd (span_nonspace rest)).
Proof.
  induction run as [|c run IH]; simpl; intros H.
  - now destruct (span_nonspace rest).
  - apply andb_true_iff in H. destruct H as [Hc Hr].
    apply negb_true_iff in Hc. rewrite Hc, (IH Hr). reflexivity.
Qed.

Lemma span_nonspace_ends rest :
  ends_run rest = true -> span_nonspace rest = (EmptyString, rest).
Proof.
  destruct rest as [|c rest]; simpl; [reflexivity|]. now intros ->.
Qed.

(** A run that is maximal is determined by the string it starts. *)
Lemma maximal_run_unique a b a' b' :
  (a ++ b)%string = (a' ++ b')%string ->
  all_nonspace a = true -> ends_run b = true ->
  all_nonspace a' = true -> ends_run b' = true ->
  a = a' /\ b = b'.
Proof.
  intros E Ha Hb Ha' Hb'.
  assert (H := span_nonspace_append a b Ha).
  rewrite E, (span_nonspace_append a' b' Ha') in H.
  rewrite !span_nonspace_ends in H by assumption. simpl in H.
  rewrite !append_nil_r in H. now inversion H.
Qed.

(** ** The URL pattern *)

Lemma url_like_cases u :
  url_like u = true ->
  exists run, (u = ("https://" ++ run)%string \/ u = ("http://" ++ run)%string)
              /\ url_body run = true.
Proof.
  unfold url_like.
  destruct (strip "https://" u) as [run|] eqn:E.
  - apply strip_spec in E. intros H. exists run. auto.
  - destruct (strip "http://" u) as [run|] eqn:E'; [|discriminate].
    apply strip_spec in E'. intros H. exists run. auto.
Qed.

Lemma url_like_https run : url_like ("https://" ++ run) = url_body run.
Proof. reflexivity. Qed.

Lemma url_like_http run : url_like ("http://" ++ run) = url_body run.
Proof. reflexivity. Qed.

Lemma url_body_spec run :
  url_body run = true <-> run <> EmptyString /\ all_nonspace run = true.
Proof.
  unfold url_body. rewrite andb_true_iff, negb_true_iff, String.eqb_neq.
  reflexivity.
Qed.

Lemma url_like_nonspace u : url_like u = true -> all_nonspace u = true.
Proof.
  intros H. destruct (url_like_cases u H) as (run & [-> | ->] & Hb);
    apply url_body_spec in Hb; destruct Hb as [_ Hb]; simpl; exact Hb.
Qed.

Lemma url_like_nonempty u : url_like u = true -> u <> EmptyString.
Proof. intros H ->. discriminate. Qed.

Lemma url_like_begins u : url_like u = true -> begins_with_scheme u = true.
Proof.
  intros H. destruct (url_like_cases u H) as (run & [-> | ->] & _);
    unfold begins_with_scheme; simpl; destruct run; reflexivity.
Qed.

Lemma match_tail_sound scheme r m rest :
  match_tail scheme r = Some (m, rest) ->
  exists run, r = ("://" ++ run ++ rest)%string
              /\ m = (scheme ++ "://" ++ run)%string
              /\ url_body run = true /\ ends_run rest = true.
Proof.
  unfold match_tail.
  destruct (strip "://" r) as [r0|] eqn:E; [|discriminate].
  apply strip_spec in E.
  destruct (span_nonspace r0) as [run rest'] eqn:Es.
  apply span_nonspace_spec in Es. destruct Es as (-> & Ha & He).
  destruct run as [|c run]; [discriminate|].
  intros [= <- <-]. exists (String c run). repeat split; assumption.
Qed.

Lemma match_tail_complete scheme run after :
  url_body run = true ->
  match_tail scheme ("://" ++ run ++ after)
  = Some ((scheme ++ "://" ++ run ++ fst (span_nonspace after))%string,
          snd (span_nonspace after)).
Proof.
  intros Hb. apply url_body_spec in Hb. destruct Hb as [Hne Ha].
  unfold match_tail. rewrite strip_append, (span_nonspace_append _ _ Ha).
  destruct run as [|c run]; [congruence|]. reflexivity.
Qed.

Lemma match_here_sound s m rest :
  match_here s = Some (m, rest) ->
  s = (m ++ rest)%string /\ url_like m = true /\ ends_run rest = true.
Proof.
  unfold match_here.
  destruct (strip "http" s) as [r|] eqn:E; [|discriminate].
  apply strip_spec in E. subst s.
  assert (Hhttp : match_tail "http" r = Some (m, rest) ->
            ("http" ++ r)%string = (m ++ rest)%string
            /\ url_like m = true /\ ends_run rest = true).
  { intros H. apply match_tail_sound in H.
    destruct H as (run & -> & -> & Hb & He).
    split; [|split; [exact Hb | exact He]].
    simpl. rewrite ?append_assoc. reflexivity. }
  destruct (strip "s" r) as [r'|] eqn:E'; [|exact Hhttp].
  destruct (match_tail "https" r') as [[m' rest']|] eqn:Et; [|exact Hhttp].
  intros [= -> ->]. apply strip_spec in E'. subst r.
  apply match_tail_sound in Et.
  destruct Et as (run & -> & -> & Hb & He).
  split; [|split; [exact Hb | exact He]].
  simpl. rewrite ?append_assoc. reflexivity.
Qed.

Lemma match_here_complete x after :
  url_like x = true ->
  match_here (x ++ after)
  = Some ((x ++ fst (span_nonspace after))%string, snd (span_nonspace after)).
Proof.
  intros H. destruct (url_like_cases x H) as (run & [-> | ->] & Hb).
  - rewrite !append_assoc.
    change (match_here ("https://" ++ run ++ after))
      with (match match_tail "https" ("://" ++ run ++ after) with
            | Some m => Some m
            | None => match_tail "http" ("s://" ++ run ++ after)
            end).
    now rewrite match_tail_complete.
  - rewrite !append_assoc.
    change (match_here ("http://" ++ run ++ after))
      with (match_tail "http" ("://" ++ run ++ after)).
    now rewrite match_tail_complete.
Qed.

Lemma match_here_exact x after :
  url_like x = true -> ends_run after = true ->
  match_here (x ++ after) = Some (x, after).
Proof.
  intros Hx Ha. rewrite (match_here_complete _ _ Hx).
  rewrite (span_nonspace_ends _ Ha). simpl. now rewrite append_nil_r.
Qed.

(** ** The scan of [findall] *)

Lemma ends_run_not_url b u after :
  ends_run (b ++ u ++ after) = true -> url_like u = true ->
  exists c b', b = String c b' /\ is_space c = true.
Proof.
  intros He Hu. destruct b as [|c b']; [|simpl in He; eauto].
  exfalso. simpl in He.
  assert (Hn := url_like_nonspace _ Hu).
  destruct u as [|c u]; [discriminate|]. simpl in He, Hn.
  rewrite He in Hn. discriminate.
Qed.

Lemma findall_fuel_sound n : forall s u,
  String.length s <= n ->
  In u (findall_fuel n s) -> outer_url_occurrence s u.
Proof.
  induction n as [|n IH]; intros s u Hlen Hin; [destruct Hin|].
  destruct s as [|c s]; [destruct Hin|]. simpl findall_fuel in Hin.
  destruct (match_here (String c s)) as [[m rest]|] eqn:Em.
  - destruct (match_here_sound _ _ _ Em) as (Es & Hm & Hrest).
    destruct Hin as [<-|Hin].
    + exists EmptyString, rest. repeat split; try assumption.
      intros b1 b2 Hb Hne. symmetry in Hb.
      apply append_eq_nil in Hb. destruct Hb. contradiction.
    + assert (Hl : String.length rest <= n).
      { assert (El := f_equal String.length Es).
        rewrite length_append in El.
        assert (String.length m <> 0)
          by (destruct m; [discriminate | simpl; lia]).
        simpl in Hlen, El. lia. }
      destruct (IH _ _ Hl Hin) as (b & a & Eb & Hu & Ha & Hfree).
      exists (m ++ b)%string, a. rewrite Es, Eb, append_assoc.
      repeat split; try assumption.
      intros b1 b2 Hb Hne.
      rewrite Eb in Hrest.
      destruct (ends_run_not_url _ _ _ Hrest Hu) as (c0 & b' & -> & Hc0).
      symmetry in Hb.
      destruct (append_eq_append _ _ _ _ Hb) as [(e & E1 & E2)|(e & E1 & E2)].
      * apply (Hfree e b2); [exact E2 | exact Hne].
      * (* [b2] reaches into [m]: it holds the whitespace [c0] *)
        destruct (url_like (b2 ++ u)) eqn:Hl2; [|reflexivity].
        apply url_like_nonspace in Hl2.
        rewrite E2, !all_nonspace_append in Hl2. simpl in Hl2.
        rewrite Hc0 in Hl2. simpl in Hl2.
        rewrite andb_false_r in Hl2. discriminate.
  - destruct (IH s u ltac:(simpl in Hlen; lia) Hin)
      as (b & a & Eb & Hu & Ha & Hfree).
    exists (String c b), a. rewrite Eb. repeat split; try assumption.
    intros b1 b2 Hb Hne.
    destruct b1 as [|c1 b1]; simpl in Hb.
    + subst b2.
      destruct (url_like (String c b ++ u)) eqn:Hl2; [|reflexivity].
      exfalso.
      assert (Hc := match_here_complete _ a Hl2).
      rewrite append_assoc in Hc. simpl in Hc.
      rewrite <- Eb in Hc. simpl in Em. congruence.
    + inversion Hb; subst. now apply (Hfree b1 b2).
Qed.

Lemma findall_fuel_complete n : forall s u,
  String.length s <= n ->
  outer_url_occurrence s u -> In u (findall_fuel n s).
Proof.
  induction n as [|n IH]; intros s u Hlen (b & a & Es & Hu & Ha & Hfree).
  - exfalso. destruct s; [|simpl in Hlen; lia].
    symmetry in Es. apply append_eq_nil in Es. destruct Es as [_ Es].
    apply append_eq_nil in Es. destruct Es as [-> _]. discriminate.
  - destruct s as [|c s].
    { exfalso. symmetry in Es. apply append_eq_nil in Es.
      destruct Es as [_ Es]. apply append_eq_nil in Es.
      destruct Es as [-> _]. discriminate. }
    simpl findall_fuel.
    destruct (match_here (String c s)) as [[m rest]|] eqn:Em.
    + destruct (match_here_sound _ _ _ Em) as (Es' & Hm & Hrest).
      destruct b as [|cb b].
      * simpl in Es. rewrite Es, (match_here_exact _ _ Hu Ha) in Em.
        inversion Em. now left.
      * right.
        assert (E : (m ++ rest)%string = (String cb b ++ u ++ a)%string)
          by congruence.
        destruct (append_eq_append _ _ _ _ E) as [(e & E1 & E2)|(e & E1 & E2)].
        -- (* [u] starts inside the match: it is its tail *)
           exfalso.
           assert (Hme := url_like_nonspace _ Hm).
           rewrite E1, all_nonspace_append in Hme.
           apply andb_true_iff in Hme. destruct Hme as [_ He].
           symmetry in E2.
           destruct (maximal_run_unique _ _ _ _ E2 He Hrest
                       (url_like_nonspace _ Hu) Ha) as [-> _].
           specialize (Hfree EmptyString (String cb b) eq_refl
                         ltac:(discriminate)).
           rewrite E1 in Hm. congruence.
        -- apply IH.
           ++ assert (El := f_equal String.length Es').
              rewrite length_append in El.
              assert (String.length m <> 0)
                by (destruct m; [discriminate | simpl; lia]).
              simpl in Hlen, El. lia.
           ++ exists e, a. repeat split; try assumption.
              intros b1 b2 Hb Hne. apply (Hfree (m ++ b1)%string b2).
              ** rewrite E1, Hb. now rewrite append_assoc.
              ** exact Hne.
    + destruct b as [|cb b].
      * exfalso. simpl in Es.
        rewrite Es, (match_here_exact _ _ Hu Ha) in Em. discriminate.
      * simpl in Es. inversion Es; subst.
        apply IH; [simpl in Hlen; lia|].
        exists b, a. repeat split; try assumption.
        intros b1 b2 Hb Hne. apply (Hfree (String cb b1) b2); [|exact Hne].
        simpl. now rewrite Hb.
Qed.

(** What [re.findall] returns for the pattern: the URL-like substrings
    with a maximal run that are not the tail of a longer one. *)
Lemma findall_spec s u : In u (findall s) <-> outer_url_occurrence s u.
Proof.
  unfold findall. split.
  - now apply findall_fuel_sound.
  - now apply findall_fuel_complete.
Qed.

(** ** The URL extractor *)

Lemma lists_set_spec l out :
  lists_set l out = true <-> NoDup out /\ forall x, In x out <-> In x l.
Proof.
  unfold lists_set.
  rewrite !andb_true_iff, distinct_NoDup, !forallb_forall. split.
  - intros [[Hd Hsub] Hsup]. split; [assumption|].
    intros x. split; intros Hx.
    + now apply mem_In, Hsub.
    + now apply mem_In, Hsup.
  - intros [Hd Hiff]. repeat split; try assumption;
      intros x Hx; apply mem_In, Hiff, Hx.
Qed.

Lemma search_spec json_data u :
  In u (search json_data)
  <-> exists s, string_value json_data s /\ In u (findall s).
Proof.
  revert u. induction json_data as [|b|n|s|l IH|f IH] using json_ind;
    intros u; simpl.
  - split; [intros [] | intros (s & H & _); inversion H].
  - split; [intros [] | intros (s & H & _); inversion H].
  - split; [intros [] | intros (s & H & _); inversion H].
  - split.
    + intros H. exists s. split; [constructor | assumption].
    + intros (s' & H & Hin). inversion H; subst. assumption.
  - rewrite in_flat_map. rewrite Forall_forall in IH. split.
    + intros (x & Hx & Hu). apply (IH x Hx) in Hu.
      destruct Hu as (s & Hs & Hin). exists s. split; [|assumption].
      now apply sv_item with x.
    + intros (s & Hs & Hin). inversion Hs; subst.
      exists x. split; [assumption|]. apply (IH x); [assumption|]. eauto.
  - rewrite in_flat_map. rewrite Forall_forall in IH. split.
    + intros ([k x] & Hx & Hu). apply (IH (k, x) Hx) in Hu.
      destruct Hu as (s & Hs & Hin). exists s. split; [|assumption].
      now apply sv_field with k x.
    + intros (s & Hs & Hin). inversion Hs; subst.
      exists (k, x). split; [assumption|].
      apply (IH (k, x)); [assumption|]. simpl. eauto.
Qed.

Lemma search_rename_keys g json_data :
  search (rename_keys g json_data) = search json_data.
Proof.
  induction json_data as [|b|n|s|l IH|f IH] using json_ind; simpl;
    try reflexivity.
  - induction IH as [|x l Hx _ IHl]; simpl; [reflexivity|].
    now rewrite Hx, IHl.
  - induction IH as [|[k x] f Hx _ IHf]; simpl; [reflexivity|].
    simpl in Hx. now rewrite Hx, IHf.
Qed.

(** C2, as stated, fails on a string in which a URL prefix occurs inside
    the run of an earlier URL: [http://b] is the prefix followed by a
    maximal run of non-whitespace characters, and it is not returned. *)
Lemma collects_url_occurrences_nested_prefix :
  ~ collects_url_occurrences
      (quiet_runtime (JStr "http://ahttp://b")) (JStr "http://ahttp://b").
Proof.
  intros H. destruct (H eq_refl) as (_ & _ & Hiff).
  assert (Hin : In "http://b"
                   (extract_urls (quiet_runtime (JStr "http://ahttp://b"))
                                 (JStr "http://ahttp://b"))).
  { apply Hiff. exists "http://ahttp://b". split; [constructor|].
    exists "http://a", "". repeat split. }
  vm_compute in Hin. destruct Hin as [Hin|[]]. discriminate Hin.
Qed.

(** C2, amended: for every valid JSON document, [extract_urls] returns a
    collection with no duplicate strings in which every element begins
    with [http://] or [https://], containing exactly the URL-like
    substrings (the prefix followed by a maximal, non-empty run of
    non-whitespace characters) of the string values of the document, at
    any depth, that are not the tail of a longer URL-like substring: a
    prefix inside the run of an earlier URL starts no URL of its own.
    Mapping keys are not scanned (renaming them changes nothing), every
    such URL of a string value is returned, and a document without any
    yields the empty collection. *)
Theorem extract_urls_collects :
  forall (rt : runtime) (json_data : json),
    set_order_ok rt (search json_data) = true ->
    NoDup (extract_urls rt json_data)
    /\ (forall u, In u (extract_urls rt json_data) ->
                  begins_with_scheme u = true)
    /\ (forall u, In u (extract_urls rt json_data)
                  <-> exists s, string_value json_data s
                                /\ outer_url_occurrence s u)
    /\ (forall g, extract_urls rt (rename_keys g json_data)
                  = extract_urls rt json_data)
    /\ ((forall s u, string_value json_data s -> ~ outer_url_occurrence s u) ->
        extract_urls rt json_data = []).
Proof.
  intros rt json_data Hok.
  unfold set_order_ok in Hok. apply lists_set_spec in Hok.
  destruct Hok as [Hnd Hmem].
  assert (Hiff : forall u, In u (extract_urls rt json_data)
                  <-> exists s, string_value json_data s
                                /\ outer_url_occurrence s u).
  { intros u. unfold extract_urls, list_of_set.
    rewrite Hmem, search_spec. split; intros (s & Hs & Hu); exists s;
      (split; [assumption|]); now apply findall_spec. }
  split; [exact Hnd|]. split; [|split; [exact Hiff|split]].
  - intros u Hu. apply Hiff in Hu.
    destruct Hu as (s & _ & b & a & _ & Hl & _).
    now apply url_like_begins.
  - intros g. unfold extract_urls. now rewrite search_rename_keys.
  - intros Hnone.
    destruct (extract_urls rt json_data) as [|u r] eqn:E; [reflexivity|].
    exfalso. destruct (proj1 (Hiff u) (or_introl eq_refl)) as (s & Hs & Hu).
    exact (Hnone s u Hs Hu).
Qed.

Lemma extract_urls_collects_witness :
  NoDup (extract_urls
           (quiet_runtime
              (JDict [("notes", JStr "see http://a and https://b/c")]))
           (JDict [("notes", JStr "see http://a and https://b/c")])).
Proof.
  refine (proj1 (extract_urls_collects
                   (quiet_runtime
                      (JDict [("notes", JStr "see http://a and https://b/c")]))
                   (JDict [("notes", JStr "see http://a and https://b/c")])
                   _)).
  reflexivity.
Defined.

(** ** Reading back what [dumps] wrote: numbers *)

(** A fact about one character, settled by going through the 256 of
    them. *)
Ltac each_char c :=
  destruct c as [[] [] [] [] [] [] [] []]; try discriminate; reflexivity.

Lemma digit_char_spec d :
  (d < 10)%N ->
  is_digit (digit_char d) = true /\ digit_value (digit_char d) = d.
Proof.
  intros H.
  assert (Hc : (d = 0 \/ d = 1 \/ d = 2 \/ d = 3 \/ d = 4 \/ d = 5 \/ d = 6
                \/ d = 7 \/ d = 8 \/ d = 9)%N) by lia.
  destruct Hc as [->|[->|[->|[->|[->|[->|[->|[->|[->| ->]]]]]]]]];
    split; reflexivity.
Qed.












(** ** Reading back what [dumps] wrote: strings *)




(** ** Reading back what [dumps] wrote: mappings *)



(** ** Reading back what [dumps] wrote: values *)




























(** * Further properties of the code *)

(** ** The run of [main], event by event *)

Lemma write_outputs_trace rt folder g :
  write_outputs rt folder g = (write_trace rt folder g, Ok tt).
Proof.
  unfold write_outputs, write_trace, save_to_json, save_to_csv, write_report,
    url_rows.
  unfold bind, emit, ret.
  destruct (write_error rt (path_join folder "extracted_data.json"));
    destruct (flat_tool_execs g) as [|first flats];
    destruct (sorted_urls g) as [|url urls];
    destruct (write_error rt (path_join folder "tool_executions.csv"));
    destruct (write_error rt (path_join folder "urls.csv"));
    reflexivity.
Qed.

(** A run either attempts no write, or has completed after the folder,
    the extraction and the writes. *)
Lemma main_trace_cases rt input_file output_folder :
  saves (fst (main rt input_file output_folder)) = []
  \/ exists tp tg g json_data,
       prepare_folder rt output_folder = (tp, Ok (folder_of output_folder))
       /\ json_load rt input_file = Loaded json_data
       /\ truthy json_data = true
       /\ gather rt json_data = (tg, Ok g)
       /\ main rt input_file output_folder
          = (tp ++ tg ++ write_trace rt (folder_of output_folder) g,
             Ok Completed).
Proof.
  rewrite main_saves, main_run.
  destruct (prepare_folder rt output_folder) as [tp [folder|e]] eqn:Hp;
    [|now left].
  destruct (json_load rt input_file) as [e|json_data]; [now left|].
  destruct (truthy json_data) eqn:Ht; [|now left].
  destruct (gather rt json_data) as [tg [g|e]] eqn:Hg; [|now left].
  right. exists tp, tg, g, json_data.
  rewrite write_outputs_trace. simpl fst.
  rewrite (prepare_folder_folder _ _ _ _ Hp) in *. auto.
Qed.

Lemma main_completed rt input_file output_folder :
  snd (main rt input_file output_folder) = Ok Completed ->
  exists tp tg g json_data,
    prepare_folder rt output_folder = (tp, Ok (folder_of output_folder))
    /\ json_load rt input_file = Loaded json_data
    /\ truthy json_data = true
    /\ gather rt json_data = (tg, Ok g)
    /\ main rt input_file output_folder
       = (tp ++ tg ++ write_trace rt (folder_of output_folder) g,
          Ok Completed).
Proof.
  rewrite main_run.
  destruct (prepare_folder rt output_folder) as [tp [folder|e]] eqn:Hp;
    [|discriminate].
  destruct (json_load rt input_file) as [e|json_data]; [discriminate|].
  destruct (truthy json_data) eqn:Ht; [|discriminate].
  destruct (gather rt json_data) as [tg [g|e]] eqn:Hg; [|discriminate].
  intros _. exists tp, tg, g, json_data.
  rewrite write_outputs_trace. simpl fst.
  rewrite (prepare_folder_folder _ _ _ _ Hp) in *. auto.
Qed.

Lemma saves_write_trace rt folder g :
  saves (write_trace rt folder g) = expected_saves folder g.
Proof.
  assert (H := write_outputs_run rt folder g).
  rewrite write_outputs_trace in H. apply H.
Qed.

Lemma In_write_report rt label path e :
  write_error rt path = Some e ->
  In (Print (label ++ e)%string) (write_report rt label path).
Proof. unfold write_report. intros ->. now left. Qed.

(** A write attempt of a run is one of the writes of a completed run. *)
Lemma main_save_attempt rt input_file output_folder ev :
  In ev (fst (main rt input_file output_folder)) -> is_save ev = true ->
  exists tp tg g,
    main rt input_file output_folder
    = (tp ++ tg ++ write_trace rt (folder_of output_folder) g, Ok Completed)
    /\ In ev (expected_saves (folder_of output_folder) g).
Proof.
  intros Hin Hev.
  assert (Hs : In ev (saves (fst (main rt input_file output_folder))))
    by now apply In_saves.
  destruct (main_trace_cases rt input_file output_folder)
    as [Hnone|(tp & tg & g & d & Hp & Hl & Ht & Hg & Hrun)].
  - rewrite Hnone in Hs. destruct Hs.
  - exists tp, tg, g. split; [exact Hrun|].
    rewrite main_saves, Hp, Hl, Ht, Hg in Hs. exact Hs.
Qed.

(** An event with the property [P] that occurs after a stretch without
    such events occurs in what follows the stretch. *)
Lemma split_after_quiet (P : event -> bool) l1 : forall l2 before ev after,
  l1 ++ l2 = before ++ ev :: after ->
  forallb (fun x => negb (P x)) l1 = true -> P ev = true ->
  exists before', before = l1 ++ before' /\ l2 = before' ++ ev :: after.
Proof.
  induction l1 as [|x l1 IH]; intros l2 before ev after H Hq Hev.
  - now exists before.
  - simpl in Hq. apply andb_true_iff in Hq. destruct Hq as [Hx Hq].
    destruct before as [|y before]; simpl in H; injection H as -> H.
    + rewrite Hev in Hx. discriminate.
    + destruct (IH _ _ _ _ H Hq Hev) as (b' & -> & ->). now exists b'.
Qed.

Ltac locate H :=
  lazymatch type of H with
  | [] = ?b ++ _ :: _ => destruct b; discriminate H
  | _ :: _ = ?b ++ _ :: _ =>
      destruct b as [|? ?]; simpl in H;
      [ injection H as <- <- | injection H as <- H; locate H ]
  end.

Ltac write_trace_cases rt folder g :=
  unfold write_trace, write_report;
  destruct (write_error rt (path_join folder "extracted_data.json"))
    as [e1|] eqn:E1;
  destruct (flat_tool_execs g) as [|first flats];
  destruct (sorted_urls g) as [|url urls];
  destruct (write_error rt (path_join folder "tool_executions.csv"))
    as [e2|] eqn:E2;
  destruct (write_error rt (path_join folder "urls.csv")) as [e3|] eqn:E3;
  simpl.

(** In the writing part of a run a write attempt is followed at once by
    its failure message when it fails, and by no such message when it
    succeeds. *)
Lemma write_trace_attempts rt folder g before ev after :
  write_trace rt folder g = before ++ ev :: after -> is_save ev = true ->
  exists rest,
    after = failure_report rt ev ++ rest /\ starts_with_report rest = false.
Proof.
  write_trace_cases rt folder g; intros H Hev; locate H;
    simpl in Hev; try discriminate Hev;
    unfold failure_report, write_report; rewrite ?E1, ?E2, ?E3;
    eexists; split; reflexivity.
Qed.

(** And a failure message comes right after the attempt it reports. *)
Lemma write_trace_reports rt folder g before ev after :
  write_trace rt folder g = before ++ ev :: after ->
  is_error_report ev = true ->
  exists before' attempt,
    before = before' ++ [attempt]
    /\ is_save attempt = true /\ failure_report rt attempt = [ev].
Proof.
  write_trace_cases rt folder g; intros H Hev; locate H;
    simpl in Hev; try discriminate Hev;
    match goal with
    | |- exists before' attempt, ?l = _ /\ _ =>
        match l with
        | [?a] => exists [], a
        | [?x; ?a] => exists [x], a
        | [?x; ?y; ?a] => exists [x; y], a
        | [?x; ?y; ?z; ?a] => exists [x; y; z], a
        | [?x; ?y; ?z; ?u; ?a] => exists [x; y; z; u], a
        end
    end;
    unfold failure_report, write_report; rewrite ?E1, ?E2, ?E3;
    repeat split.
Qed.

Lemma quiet_gather rt json_data :
  forallb (fun ev => negb (is_save ev || is_error_report ev))
          (fst (gather rt json_data)) = true.
Proof.
  destruct json_data as [| | | | |fields]; try reflexivity.
  rewrite gather_dict. unfold cot_trace, no_urls_trace.
  destruct (tool_execs_of fields) as [tool_execs|e];
    [destruct (flatten_all tool_execs) as [flats|e]|];
    destruct (has_key "chain_of_thought" fields);
    try destruct (is_nil _); reflexivity.
Qed.

Lemma quiet_prepare_folder rt output_folder :
  forallb (fun ev => negb (is_save ev || is_error_report ev))
          (fst (prepare_folder rt output_folder)) = true.
Proof.
  destruct output_folder as [folder|]; simpl; [|reflexivity].
  destruct (path_exists rt folder); [reflexivity|].
  unfold bind, emit, raise, ret.
  now destruct (makedirs_error rt folder).
Qed.

(** The trace of a run: a stretch without write attempt or failure
    message, and then nothing more or the writing part. *)
Lemma main_trace_shape rt input_file output_folder :
  exists pre w,
    fst (main rt input_file output_folder) = pre ++ w
    /\ forallb (fun ev => negb (is_save ev || is_error_report ev)) pre = true
    /\ (w = [] \/ exists g, w = write_trace rt (folder_of output_folder) g).
Proof.
  rewrite main_run.
  assert (Hp := quiet_prepare_folder rt output_folder).
  destruct (prepare_folder rt output_folder) as [tp [folder|e]] eqn:Ep;
    simpl in Hp.
  - destruct (json_load rt input_file) as [e|json_data].
    + exists (tp ++ [Print ("Error loading JSON file: " ++ e)%string]), [].
      rewrite app_nil_r, forallb_app, Hp. auto.
    + destruct (truthy json_data).
      * assert (Hg := quiet_gather rt json_data).
        destruct (gather rt json_data) as [tg [g|e]]; simpl in Hg.
        -- exists (tp ++ tg), (write_trace rt (folder_of output_folder) g).
           rewrite write_outputs_trace, forallb_app, Hp, Hg. simpl fst.
           rewrite (prepare_folder_folder _ _ _ _ Ep), app_assoc. eauto.
        -- exists (tp ++ tg), []. rewrite app_nil_r, forallb_app, Hp, Hg.
           auto.
      * exists tp, []. rewrite app_nil_r. auto.
  - exists tp, []. rewrite app_nil_r. auto.
Qed.

Lemma quiet_no_save pre :
  forallb (fun ev => negb (is_save ev || is_error_report ev)) pre = true ->
  forallb (fun ev => negb (is_save ev)) pre = true
  /\ forallb (fun ev => negb (is_error_report ev)) pre = true.
Proof.
  induction pre as [|ev pre IH]; simpl; [auto|].
  intros H. apply andb_true_iff in H. destruct H as [Hev H].
  destruct (IH H) as [-> ->].
  apply negb_true_iff, orb_false_iff in Hev. destruct Hev as [-> ->]. auto.
Qed.

(** X1: a failed write is reported and changes nothing else: with other
    write failures the run ends the same way and attempts the same
    writes; a write attempt that fails is followed at once by its
    message (Error saving to JSON, Error saving to CSV, with the error
    text), one that succeeds by no such message, and every such message
    in the trace stands right after the failed attempt it reports. *)
Theorem write_failures_do_not_block :
  forall (rt : runtime) (w : string -> option string)
         (input_file : string) (output_folder : option string),
    snd (main (with_write_error rt w) input_file output_folder)
    = snd (main rt input_file output_folder)
    /\ saves (fst (main (with_write_error rt w) input_file output_folder))
       = saves (fst (main rt input_file output_folder))
    /\ (forall before ev after,
          fst (main rt input_file output_folder) = before ++ ev :: after ->
          is_save ev = true ->
          exists rest,
            after = failure_report rt ev ++ rest
            /\ starts_with_report rest = false)
    /\ (forall before ev after,
          fst (main rt input_file output_folder) = before ++ ev :: after ->
          is_error_report ev = true ->
          exists before' attempt,
            before = before' ++ [attempt]
            /\ is_save attempt = true
            /\ failure_report rt attempt = [ev]).
Proof.
  intros rt w input_file output_folder.
  split; [|split; [|split]].
  - rewrite !main_run.
    change (prepare_folder (with_write_error rt w) output_folder)
      with (prepare_folder rt output_folder).
    change (json_load (with_write_error rt w) input_file)
      with (json_load rt input_file).
    destruct (prepare_folder rt output_folder) as [tp [folder|e]];
      [|reflexivity].
    destruct (json_load rt input_file) as [e|json_data]; [reflexivity|].
    destruct (truthy json_data); [|reflexivity].
    change (gather (with_write_error rt w) json_data)
      with (gather rt json_data).
    now destruct (gather rt json_data) as [tg [g|e]].
  - rewrite !main_saves. reflexivity.
  - intros before ev after Ht Hev.
    destruct (main_trace_shape rt input_file output_folder)
      as (pre & wt & Hshape & Hq & Hw).
    rewrite Hshape in Ht. apply quiet_no_save in Hq. destruct Hq as [Hq _].
    destruct (split_after_quiet is_save _ _ _ _ _ Ht Hq Hev)
      as (before' & _ & Hwt).
    destruct Hw as [->|[g ->]]; [now destruct before'|].
    now apply (write_trace_attempts _ _ _ _ _ _ Hwt).
  - intros before ev after Ht Hev.
    destruct (main_trace_shape rt input_file output_folder)
      as (pre & wt & Hshape & Hq & Hw).
    rewrite Hshape in Ht. apply quiet_no_save in Hq. destruct Hq as [_ Hq].
    destruct (split_after_quiet is_error_report _ _ _ _ _ Ht Hq Hev)
      as (before' & -> & Hwt).
    destruct Hw as [->|[g ->]]; [now destruct before'|].
    destruct (write_trace_reports _ _ _ _ _ _ Hwt Hev)
      as (b & attempt & -> & Ha & Hr).
    exists (pre ++ b), attempt. now rewrite app_assoc.
Qed.

Lemma write_failures_do_not_block_witness :
  exists rest,
    [Print "Error saving to JSON: disk full";
     Print "No tool execution details found to export.";
     Print "Data extraction complete. Files saved:";
     Print "  - ./extracted_data.json"]
    = failure_report
        (with_write_error (quiet_runtime (JDict [("location", JStr "NYC")]))
           (fun _ => Some "disk full"))
        (SaveJson "./extracted_data.json"
           (JDict [("metadata",
                    JDict [("location", JStr "NYC"); ("time", JStr "");
                           ("error", JStr ""); ("observation", JStr "")]);
                   ("chain_of_thought", JList []);
                   ("tool_executions", JList []);
                   ("sorted_urls", JList [])]))
      ++ rest
    /\ starts_with_report rest = false.
Proof.
  refine (proj1 (proj2 (proj2
            (write_failures_do_not_block
               (with_write_error
                  (quiet_runtime (JDict [("location", JStr "NYC")]))
                  (fun _ => Some "disk full"))
               (fun _ => None) "input.json" None)))
            [Print cot_warning; Print cot_warning;
             Print "No URLs were found in the JSON data."]
            _ _ _ _); reflexivity.
Defined.

(** ** How a run can fail *)

Lemma collect_steps_raise steps : forall tool_execs e,
  collect_steps steps tool_execs = Raise e -> e = TypeError.
Proof.
  induction steps as [|step steps IH]; intros tool_execs e; simpl;
    [discriminate|].
  destruct step as [| | |s|l|f]; simpl; try (now intros [= <-]).
  - destruct (str_contains "tool_executions" s); [now intros [= <-]|apply IH].
  - destruct (existsb (json_is_str "tool_executions") l);
      [now intros [= <-]|apply IH].
  - unfold has_key.
    destruct (lookup "tool_executions" f) as [execs|]; [|apply IH].
    simpl. destruct (py_iter execs) as [items|e'] eqn:Hi; simpl; [apply IH|].
    intros [= <-]. destruct execs; simpl in Hi; congruence.
Qed.

Lemma tool_execs_of_raise fields e :
  tool_execs_of fields = Raise e -> e = TypeError.
Proof.
  unfold tool_execs_of.
  destruct (py_iter (chain_of fields)) as [steps|e'] eqn:Hi; simpl.
  - apply collect_steps_raise.
  - intros [= <-]. destruct (chain_of fields); simpl in Hi; congruence.
Qed.

Lemma flatten_all_raise tool_execs e :
  flatten_all tool_execs = Raise e -> e = AttributeError.
Proof.
  induction tool_execs as [|x r IH]; simpl; [discriminate|].
  destruct (flatten_tool_execution x) as [flat|e'] eqn:Hx; simpl.
  - destruct (flatten_all r) as [flats|e'']; simpl; [discriminate|].
    intros [= <-]. now apply IH.
  - intros [= <-].
    destruct x; unfold flatten_tool_execution in Hx; simpl in Hx; congruence.
Qed.

Lemma flatten_all_non_dict tool_execs :
  forallb is_dict tool_execs = false ->
  flatten_all tool_execs = Raise AttributeError.
Proof.
  induction tool_execs as [|x r IH]; simpl; [discriminate|].
  destruct x as [| | | | |f]; try reflexivity.
  simpl. intros H. now rewrite (IH H).
Qed.

Lemma gather_raise rt json_data e :
  snd (gather rt json_data) = Raise e -> e = AttributeError \/ e = TypeError.
Proof.
  destruct json_data as [| | | | |fields];
    try (simpl; intros [= <-]; now left).
  rewrite gather_dict.
  destruct (tool_execs_of fields) as [tool_execs|e'] eqn:Ht; simpl.
  - destruct (flatten_all tool_execs) as [flats|e''] eqn:Hf; simpl;
      [discriminate|].
    intros [= <-]. left. now apply (flatten_all_raise tool_execs).
  - intros [= <-]. right. now apply (tool_execs_of_raise fields).
Qed.

(** X2: when [main] raises it has attempted no write, and the exception
    comes from one of two places.  Either [os.makedirs] raised it for an
    output folder that did not exist: nothing else has happened, the
    input was not read.  Or the extraction raised it on a document that
    was loaded and is truthy: the trace ends with what the extraction
    printed, and the exception is not a [KeyError], the subscript
    [step["tool_executions"]] being guarded by a membership test.
    Loading, the load check, the writes and the summary never raise. *)
Theorem main_failure_modes :
  forall (rt : runtime) (input_file : string) (output_folder : option string)
         (e : exn),
    snd (main rt input_file output_folder) = Raise e ->
    saves (fst (main rt input_file output_folder)) = []
    /\ ((exists folder,
           output_folder = Some folder
           /\ path_exists rt folder = false
           /\ makedirs_error rt folder = Some e
           /\ main rt input_file output_folder
              = ([MakeDirs folder], Raise e))
        \/ (exists tp json_data tg,
              prepare_folder rt output_folder
              = (tp, Ok (folder_of output_folder))
              /\ json_load rt input_file = Loaded json_data
              /\ truthy json_data = true
              /\ gather rt json_data = (tg, Raise e)
              /\ main rt input_file output_folder = (tp ++ tg, Raise e)
              /\ e <> KeyError)).
Proof.
  intros rt input_file output_folder e Hr. split.
  - destruct (main_trace_cases rt input_file output_folder)
      as [Hnone|(tp & tg & g & d & _ & _ & _ & _ & Hrun)]; [exact Hnone|].
    rewrite Hrun in Hr. discriminate.
  - assert (Hrest : forall tp,
              prepare_folder rt output_folder
              = (tp, Ok (folder_of output_folder)) ->
              exists tp json_data tg,
                prepare_folder rt output_folder
                = (tp, Ok (folder_of output_folder))
                /\ json_load rt input_file = Loaded json_data
                /\ truthy json_data = true
                /\ gather rt json_data = (tg, Raise e)
                /\ main rt input_file output_folder = (tp ++ tg, Raise e)
                /\ e <> KeyError).
    { intros tp Hp. rewrite main_run, Hp in Hr |- *.
      destruct (json_load rt input_file) as [msg|d]; [discriminate|].
      destruct (truthy d) eqn:Ht; [|discriminate].
      destruct (gather rt d) as [tg [g|e']] eqn:Hg; [discriminate|].
      simpl in Hr. inversion Hr; subst e'.
      exists tp, d, tg. repeat split; trivial.
      assert (He : e = AttributeError \/ e = TypeError).
      { apply (gather_raise rt d). now rewrite Hg. }
      destruct He as [->| ->]; discriminate. }
    destruct output_folder as [folder|]; [|right; now apply (Hrest [])].
    destruct (path_exists rt folder) eqn:Hex.
    + right. apply (Hrest []). simpl. now rewrite Hex.
    + destruct (makedirs_error rt folder) as [e'|] eqn:Hm.
      * left. exists folder.
        rewrite main_run in Hr |- *. simpl prepare_folder in *.
        rewrite Hex in *. unfold bind, emit, raise in *. rewrite Hm in *.
        simpl in Hr. inversion Hr; subst e'. auto.
      * right. apply (Hrest [MakeDirs folder]). simpl. rewrite Hex.
        unfold bind, emit, ret. now rewrite Hm.
Qed.

Lemma main_failure_modes_witness :
  saves (fst (main (no_folder_runtime (ValueError "embedded null byte")
                      example_document)
                   "input.json" (Some "out"))) = []
  /\ saves (fst (main (quiet_runtime number_record_document)
                      "input.json" None)) = [].
Proof.
  split.
  - refine (proj1 (main_failure_modes
                     (no_folder_runtime (ValueError "embedded null byte")
                        example_document)
                     "input.json" (Some "out")
                     (ValueError "embedded null byte") _)).
    reflexivity.
  - refine (proj1 (main_failure_modes
                     (quiet_runtime number_record_document)
                     "input.json" None AttributeError _)).
    reflexivity.
Defined.

Lemma printed_app t1 t2 : printed (t1 ++ t2) = printed t1 ++ printed t2.
Proof. apply flat_map_app. Qed.

Lemma prepare_folder_printed rt output_folder :
  printed (fst (prepare_folder rt output_folder)) = [].
Proof.
  destruct output_folder as [folder|]; simpl; [|reflexivity].
  destruct (path_exists rt folder); [reflexivity|].
  unfold bind, emit, raise, ret.
  now destruct (makedirs_error rt folder).
Qed.

(** X3: a document that is loaded and truthy but is not a mapping (a
    sequence, a string, a number, [true]) makes [main] raise
    [AttributeError] at the first metadata lookup: nothing is printed and
    nothing is written. *)
Theorem main_rejects_non_mapping :
  forall (rt : runtime) (input_file : string) (output_folder : option string)
         (json_data : json),
    folder_ready rt output_folder = true ->
    json_load rt input_file = Loaded json_data ->
    truthy json_data = true ->
    is_dict json_data = false ->
    snd (main rt input_file output_folder) = Raise AttributeError
    /\ printed (fst (main rt input_file output_folder)) = []
    /\ saves (fst (main rt input_file output_folder)) = [].
Proof.
  intros rt input_file output_folder json_data Hf Hl Ht Hd.
  assert (Hg : gather rt json_data = ([], Raise AttributeError)).
  { apply gather_not_dict. intros fields ->. discriminate. }
  assert (Hp := prepare_folder_printed rt output_folder).
  rewrite main_saves, main_run.
  destruct (prepare_folder_ready _ _ Hf) as [tp Hprep].
  rewrite Hprep in *. rewrite Hl, Ht, Hg. simpl in *.
  now rewrite app_nil_r.
Qed.

Lemma main_rejects_non_mapping_witness :
  snd (main (quiet_runtime (JStr "see http://a")) "input.json" (Some "out"))
  = Raise AttributeError.
Proof.
  refine (proj1 (main_rejects_non_mapping
                   (quiet_runtime (JStr "see http://a")) "input.json"
                   (Some "out") (JStr "see http://a") _ _ _ _));
    reflexivity.
Defined.

(** X4: one tool-execution record that is not a mapping is enough for [main]
    to write nothing at all: flattening for the CSV export raises
    [AttributeError] before the JSON report, which holds the raw records
    only, is written. *)
Theorem main_non_mapping_record_blocks_report :
  forall (rt : runtime) (input_file : string) (output_folder : option string)
         (fields : list (string * json)) (steps : list json),
    folder_ready rt output_folder = true ->
    json_load rt input_file = Loaded (JDict fields) ->
    lookup "chain_of_thought" fields = Some (JList steps) ->
    forallb step_ok steps = true ->
    forallb is_dict (flat_map records_of_step steps) = false ->
    snd (main rt input_file output_folder) = Raise AttributeError
    /\ saves (fst (main rt input_file output_folder)) = [].
Proof.
  intros rt input_file output_folder fields steps Hf Hl Hc Hs Hd.
  assert (Ht : truthy (JDict fields) = true)
    by (destruct fields; [discriminate | reflexivity]).
  assert (H := main_past_check rt input_file output_folder _ Hf Hl Ht).
  rewrite gather_dict in H.
  rewrite (tool_execs_of_shaped fields steps) in H.
  - rewrite (flatten_all_non_dict _ Hd) in H. exact H.
  - unfold chain_of, dict_get. now rewrite Hc.
  - exact Hs.
Qed.

Lemma main_non_mapping_record_blocks_report_witness :
  snd (main (quiet_runtime
               (JDict [("chain_of_thought",
                        JList [JDict [("tool_executions",
                                       JList [JDict []; JInt 5])]])]))
            "input.json" None)
  = Raise AttributeError.
Proof.
  refine (proj1 (main_non_mapping_record_blocks_report
                   (quiet_runtime
                      (JDict [("chain_of_thought",
                               JList [JDict [("tool_executions",
                                              JList [JDict []; JInt 5])]])]))
                   "input.json" None
                   [("chain_of_thought",
                     JList [JDict [("tool_executions",
                                    JList [JDict []; JInt 5])]])]
                   [JDict [("tool_executions", JList [JDict []; JInt 5])]]
                   _ _ _ _ _));
    reflexivity.
Defined.

(** ** The output folder *)

Lemma no_makedirs_app t1 t2 :
  no_makedirs (t1 ++ t2) = no_makedirs t1 && no_makedirs t2.
Proof. apply forallb_app. Qed.

Lemma no_makedirs_gather rt json_data :
  no_makedirs (fst (gather rt json_data)) = true.
Proof.
  destruct json_data as [| | | | |fields]; try reflexivity.
  rewrite gather_dict. unfold cot_trace, no_urls_trace.
  destruct (tool_execs_of fields) as [tool_execs|e];
    [destruct (flatten_all tool_execs) as [flats|e]|];
    destruct (has_key "chain_of_thought" fields);
    try destruct (is_nil _); reflexivity.
Qed.

Lemma no_makedirs_write_trace rt folder g :
  no_makedirs (write_trace rt folder g) = true.
Proof.
  unfold write_trace, write_report.
  destruct (write_error rt (path_join folder "extracted_data.json"));
    destruct (flat_tool_execs g) as [|first flats];
    destruct (sorted_urls g) as [|url urls];
    destruct (write_error rt (path_join folder "tool_executions.csv"));
    destruct (write_error rt (path_join folder "urls.csv"));
    reflexivity.
Qed.

(** What follows the preparation of the folder creates no folder. *)
Lemma main_after_folder rt input_file output_folder tp folder :
  prepare_folder rt output_folder = (tp, Ok folder) ->
  exists rest,
    fst (main rt input_file output_folder) = tp ++ rest
    /\ no_makedirs rest = true.
Proof.
  intros Hp. rewrite main_run, Hp.
  destruct (json_load rt input_file) as [e|json_data];
    [eexists; split; reflexivity|].
  destruct (truthy json_data);
    [|exists []; split; [now rewrite app_nil_r | reflexivity]].
  assert (Hg := no_makedirs_gather rt json_data).
  destruct (gather rt json_data) as [tg [g|e]]; simpl in Hg.
  - exists (tg ++ fst (write_outputs rt folder g)). split; [reflexivity|].
    rewrite write_outputs_trace, no_makedirs_app, Hg. simpl.
    apply no_makedirs_write_trace.
  - exists tg. split; [reflexivity | exact Hg].
Qed.

(** X5: [main] creates the output folder only when one is given that does not
    exist, and does so first of all: the folder is created even when the
    input then fails to load, and when the creation fails [main] lets
    the exception of [os.makedirs] out without reading the input. *)
Theorem main_creates_folder_first :
  forall (rt : runtime) (input_file : string) (output_folder : option string),
    ((output_folder = None
      \/ exists folder, output_folder = Some folder
                        /\ path_exists rt folder = true) ->
     no_makedirs (fst (main rt input_file output_folder)) = true)
    /\ (forall folder,
          output_folder = Some folder -> path_exists rt folder = false ->
          (exists rest,
              fst (main rt input_file output_folder) = MakeDirs folder :: rest
              /\ no_makedirs rest = true)
          /\ (forall e, makedirs_error rt folder = Some e ->
                main rt input_file output_folder
                = ([MakeDirs folder], Raise e))
          /\ (forall e, makedirs_error rt folder = None ->
                json_load rt input_file = LoadError e ->
                main rt input_file output_folder
                = ([MakeDirs folder;
                    Print ("Error loading JSON file: " ++ e)%string],
                   Ok EarlyReturn))).
Proof.
  intros rt input_file output_folder. split.
  - intros Hcase.
    assert (Hp : prepare_folder rt output_folder
                 = ([], Ok (folder_of output_folder))).
    { destruct Hcase as [->|(folder & -> & Hex)]; simpl; [reflexivity|].
      now rewrite Hex. }
    destruct (main_after_folder rt input_file _ _ _ Hp) as (rest & -> & Hn).
    exact Hn.
  - intros folder -> Hex. split; [|split].
    + destruct (makedirs_error rt folder) as [e|] eqn:Hm.
      * exists []. rewrite main_run. simpl. rewrite Hex.
        unfold bind, emit, raise. rewrite Hm. split; reflexivity.
      * assert (Hp : prepare_folder rt (Some folder)
                     = ([MakeDirs folder], Ok folder)).
        { simpl. rewrite Hex. unfold bind, emit, ret. now rewrite Hm. }
        destruct (main_after_folder rt input_file _ _ _ Hp)
          as (rest & -> & Hn).
        now exists rest.
    + intros e Hm. rewrite main_run. simpl. rewrite Hex.
      unfold bind, emit, raise. now rewrite Hm.
    + intros e Hm Hl. rewrite main_run. simpl. rewrite Hex.
      unfold bind, emit, ret. now rewrite Hm, Hl.
Qed.

(** ** What a run writes and prints *)

Lemma targets_saves t : targets (saves t) = targets t.
Proof.
  induction t as [|ev t IH]; [reflexivity|].
  destruct ev; simpl; rewrite <- IH; reflexivity.
Qed.

Lemma targets_expected_saves folder g :
  targets (expected_saves folder g)
  = path_join folder "extracted_data.json"
    :: (if is_nil (flat_tool_execs g) then []
        else [path_join folder "tool_executions.csv"])
    ++ (if is_nil (sorted_urls g) then [] else [path_join folder "urls.csv"]).
Proof.
  unfold expected_saves.
  destruct (flat_tool_execs g), (sorted_urls g); reflexivity.
Qed.

Lemma main_targets rt input_file output_folder :
  let folder := folder_of output_folder in
  let t := targets (fst (main rt input_file output_folder)) in
  t = []
  \/ t = [path_join folder "extracted_data.json"]
  \/ t = [path_join folder "extracted_data.json";
          path_join folder "tool_executions.csv"]
  \/ t = [path_join folder "extracted_data.json"; path_join folder "urls.csv"]
  \/ t = [path_join folder "extracted_data.json";
          path_join folder "tool_executions.csv";
          path_join folder "urls.csv"].
Proof.
  intros folder t. unfold t. rewrite <- targets_saves.
  destruct (main_trace_cases rt input_file output_folder)
    as [Hnone|(tp & tg & g & d & Hp & Hl & Ht & Hg & Hrun)].
  - rewrite Hnone. now left.
  - rewrite main_saves, Hp, Hl, Ht, Hg, targets_expected_saves.
    destruct (flat_tool_execs g), (sorted_urls g); simpl; auto.
Qed.

(** X6: whatever the command line, the script writes to at most three files,
    all in the folder named by the second argument (the current folder
    when there is none): the JSON report first, then
    [tool_executions.csv], then [urls.csv]; a CSV file is never written
    without the report. *)
Theorem script_writes_three_files_at_most :
  forall (rt : runtime) (argv : list string),
    let folder := script_folder argv in
    let t := targets (fst (script rt argv)) in
    t = []
    \/ t = [path_join folder "extracted_data.json"]
    \/ t = [path_join folder "extracted_data.json";
            path_join folder "tool_executions.csv"]
    \/ t = [path_join folder "extracted_data.json";
            path_join folder "urls.csv"]
    \/ t = [path_join folder "extracted_data.json";
            path_join folder "tool_executions.csv";
            path_join folder "urls.csv"].
Proof.
  intros rt argv. unfold script.
  destruct argv as [|prog [|path [|dir rest]]]; apply main_targets.
Qed.

Lemma printed_cot_trace fields :
  printed (cot_trace fields)
  = if has_key "chain_of_thought" fields then [] else [cot_warning].
Proof. unfold cot_trace. now destruct (has_key _ fields). Qed.

Lemma printed_write_trace rt folder g :
  printed (write_trace rt folder g)
  = (printed (write_report rt "Error saving to JSON: "
                (path_join folder "extracted_data.json"))
     ++ (if is_nil (flat_tool_execs g)
         then ["No tool execution details found to export."]
         else printed (write_report rt "Error saving to CSV: "
                         (path_join folder "tool_executions.csv")))
     ++ (if is_nil (sorted_urls g) then []
         else printed (write_report rt "Error saving to CSV: "
                         (path_join folder "urls.csv"))))
    ++ "Data extraction complete. Files saved:"
       :: map (fun path => ("  - " ++ path)%string)
              (targets (write_trace rt folder g)).
Proof.
  unfold write_trace, write_report.
  destruct (write_error rt (path_join folder "extracted_data.json"));
    destruct (flat_tool_execs g) as [|first flats];
    destruct (sorted_urls g) as [|url urls];
    destruct (write_error rt (path_join folder "tool_executions.csv"));
    destruct (write_error rt (path_join folder "urls.csv"));
    reflexivity.
Qed.

Lemma targets_app t1 t2 : targets (t1 ++ t2) = targets t1 ++ targets t2.
Proof. apply flat_map_app. Qed.

Lemma targets_no_saves t : saves t = [] -> targets t = [].
Proof. intros H. now rewrite <- targets_saves, H. Qed.

(** X7: a run that completes ends its output with the line
    [Data extraction complete. Files saved:] followed by one line per
    file whose write was attempted, in the order of the attempts; a file
    is listed whether or not its write succeeded. *)
Theorem main_summary_lists_attempts :
  forall (rt : runtime) (input_file : string) (output_folder : option string),
    snd (main rt input_file output_folder) = Ok Completed ->
    exists before,
      printed (fst (main rt input_file output_folder))
      = before
        ++ "Data extraction complete. Files saved:"
           :: map (fun path => ("  - " ++ path)%string)
                  (targets (fst (main rt input_file output_folder))).
Proof.
  intros rt input_file output_folder Hc.
  destruct (main_completed _ _ _ Hc)
    as (tp & tg & g & d & Hp & Hl & Ht & Hg & Hrun).
  rewrite Hrun. simpl fst.
  assert (Htp : targets tp = []).
  { apply targets_no_saves.
    assert (H := prepare_folder_saves rt output_folder).
    now rewrite Hp in H. }
  assert (Htg : targets tg = []).
  { apply targets_no_saves.
    assert (H := gather_saves rt d). now rewrite Hg in H. }
  rewrite !targets_app, Htp, Htg.
  change ([] ++ [] ++ targets (write_trace rt (folder_of output_folder) g))
    with (targets (write_trace rt (folder_of output_folder) g)).
  rewrite !printed_app, printed_write_trace.
  eexists. rewrite !app_assoc. reflexivity.
Qed.

Lemma main_summary_lists_attempts_witness :
  exists before,
    printed (fst (main (with_write_error (quiet_runtime example_document)
                          (fun _ => Some "disk full"))
                       "input.json" None))
    = before
      ++ "Data extraction complete. Files saved:"
         :: map (fun path => ("  - " ++ path)%string)
                (targets
                   (fst (main (with_write_error
                                 (quiet_runtime example_document)
                                 (fun _ => Some "disk full"))
                              "input.json" None))).
Proof.
  apply (main_summary_lists_attempts
           (with_write_error (quiet_runtime example_document)
              (fun _ => Some "disk full"))
           "input.json" None).
  reflexivity.
Defined.

Lemma flatten_tool_execution_keys exec_data row :
  flatten_tool_execution exec_data = Ok row ->
  dict_keys row = ["tool_name"; "method_name"; "params"; "output"].
Proof.
  destruct exec_data; try discriminate.
  unfold flatten_tool_execution. simpl. now intros [= <-].
Qed.

Lemma flatten_all_Forall2 tool_execs rows :
  flatten_all tool_execs = Ok rows <->
  Forall2 (fun exec_data row => flatten_tool_execution exec_data = Ok row)
          tool_execs rows.
Proof.
  revert rows. induction tool_execs as [|x r IH]; intros rows; simpl.
  - split.
    + intros [= <-]. constructor.
    + intros H. now inversion H.
  - split.
    + destruct (flatten_tool_execution x) as [flat|e] eqn:Hx; simpl;
        [|discriminate].
      destruct (flatten_all r) as [flats|e] eqn:Hr; simpl; [|discriminate].
      intros [= <-]. constructor; [exact Hx|]. now apply IH.
    + intros H. inversion H as [|? row ? rows' Hx Hr]; subst.
      rewrite Hx. simpl. apply IH in Hr. now rewrite Hr.
Qed.

(** X8: every JSON report that [main] writes goes to [extracted_data.json] in
    the output folder and has the four entries [metadata],
    [chain_of_thought], [tool_executions] and [sorted_urls]: the metadata
    are the fields [location], [time], [error] and [observation] of the
    document, the empty string standing for a missing one, and the chain
    is the field of the document as it is, the empty sequence when it is
    missing. *)
Theorem main_report_contents :
  forall (rt : runtime) (input_file : string) (output_folder : option string)
         (path : string) (report : json),
    In (SaveJson path report) (fst (main rt input_file output_folder)) ->
    path = path_join (folder_of output_folder) "extracted_data.json"
    /\ exists fields,
         json_load rt input_file = Loaded (JDict fields)
         /\ dict_keys report
            = ["metadata"; "chain_of_thought"; "tool_executions"; "sorted_urls"]
         /\ py_getitem report "metadata"
            = Ok (JDict [("location", dict_get "location" (JStr "") fields);
                         ("time", dict_get "time" (JStr "") fields);
                         ("error", dict_get "error" (JStr "") fields);
                         ("observation",
                          dict_get "observation" (JStr "") fields)])
         /\ py_getitem report "chain_of_thought"
            = Ok (dict_get "chain_of_thought" (JList []) fields)
         /\ py_getitem report "sorted_urls"
            = Ok (JList (map JStr
                           (sort_urls_by_relevance
                              (extract_urls rt (JDict fields)) None))).
Proof.
  intros rt input_file output_folder path report Hin.
  assert (Hs : In (SaveJson path report)
                  (saves (fst (main rt input_file output_folder))))
    by now apply In_saves.
  destruct (main_trace_cases rt input_file output_folder)
    as [Hnone|(tp & tg & g & d & Hp & Hl & Ht & Hg & Hrun)].
  { rewrite Hnone in Hs. destruct Hs. }
  rewrite main_saves, Hp, Hl, Ht, Hg in Hs.
  apply expected_saves_json in Hs. destruct Hs as [-> ->].
  split; [reflexivity|].
  apply gather_ok_inv in Hg.
  destruct Hg as (fields & tool_execs & flats & -> & _ & _ & ->).
  exists fields. repeat split; try reflexivity. exact Hl.
Qed.

Lemma main_report_contents_witness :
  "./extracted_data.json" = path_join (folder_of None) "extracted_data.json"
  /\ exists fields,
       json_load (quiet_runtime (JDict [("time", JStr "noon")])) "input.json"
       = Loaded (JDict fields)
       /\ dict_keys
            (report_of (quiet_runtime (JDict [("time", JStr "noon")]))
                       [("time", JStr "noon")] [])
          = ["metadata"; "chain_of_thought"; "tool_executions"; "sorted_urls"]
       /\ py_getitem
            (report_of (quiet_runtime (JDict [("time", JStr "noon")]))
                       [("time", JStr "noon")] [])
            "metadata"
          = Ok (JDict [("location", dict_get "location" (JStr "") fields);
                       ("time", dict_get "time" (JStr "") fields);
                       ("error", dict_get "error" (JStr "") fields);
                       ("observation",
                        dict_get "observation" (JStr "") fields)])
       /\ py_getitem
            (report_of (quiet_runtime (JDict [("time", JStr "noon")]))
                       [("time", JStr "noon")] [])
            "chain_of_thought"
          = Ok (dict_get "chain_of_thought" (JList []) fields)
       /\ py_getitem
            (report_of (quiet_runtime (JDict [("time", JStr "noon")]))
                       [("time", JStr "noon")] [])
            "sorted_urls"
          = Ok (JList (map JStr
                         (sort_urls_by_relevance
                            (extract_urls
                               (quiet_runtime (JDict [("time", JStr "noon")]))
                               (JDict fields)) None))).
Proof.
  apply (main_report_contents
           (quiet_runtime (JDict [("time", JStr "noon")])) "input.json" None).
  vm_compute. auto 6.
Defined.

(** X9: every CSV file that [main] writes is one of two: [tool_executions.csv],
    with the header [tool_name, method_name, params, output] and one row
    per extracted record, each row being the flattened record, in the
    order of extraction; or [urls.csv], with the header [url] and one row
    per ranked URL, in ranked order.  Neither is written with no row. *)
Theorem main_csv_contents :
  forall (rt : runtime) (input_file : string) (output_folder : option string)
         (path : string) (headers : list string) (rows : list json),
    In (SaveCsv path headers rows) (fst (main rt input_file output_folder)) ->
    rows <> []
    /\ exists fields tool_execs,
         json_load rt input_file = Loaded (JDict fields)
         /\ snd (extract_tool_executions (JDict fields)) = Ok tool_execs
         /\ ((path = path_join (folder_of output_folder) "tool_executions.csv"
              /\ headers = ["tool_name"; "method_name"; "params"; "output"]
              /\ Forall2 (fun exec_data row =>
                            flatten_tool_execution exec_data = Ok row)
                         tool_execs rows)
             \/ (path = path_join (folder_of output_folder) "urls.csv"
                 /\ headers = ["url"]
                 /\ rows = map (fun url => JDict [("url", JStr url)])
                               (sort_urls_by_relevance
                                  (extract_urls rt (JDict fields)) None))).
Proof.
  intros rt input_file output_folder path headers rows Hin.
  assert (Hs : In (SaveCsv path headers rows)
                  (saves (fst (main rt input_file output_folder))))
    by now apply In_saves.
  destruct (main_trace_cases rt input_file output_folder)
    as [Hnone|(tp & tg & g & d & Hp & Hl & Ht & Hg & Hrun)].
  { rewrite Hnone in Hs. destruct Hs. }
  rewrite main_saves, Hp, Hl, Ht, Hg in Hs.
  apply gather_ok_inv in Hg.
  destruct Hg as (fields & tool_execs & flats & -> & Hte & Hfl & ->).
  unfold expected_saves in Hs. simpl in Hs.
  destruct Hs as [Hs|Hs]; [discriminate|].
  apply in_app_or in Hs.
  assert (Hex : snd (extract_tool_executions (JDict fields)) = Ok tool_execs)
    by now rewrite extract_tool_executions_dict.
  destruct Hs as [Hs|Hs].
  - destruct flats as [|first flats]; [destruct Hs|].
    destruct Hs as [Hs|[]]. inversion Hs; subst.
    split; [discriminate|]. exists fields, tool_execs.
    repeat split; try assumption. left. repeat split.
    + apply flatten_all_Forall2 in Hfl.
      inversion Hfl as [|x ? ? ? Hx _]; subst.
      now apply (flatten_tool_execution_keys x).
    + now apply flatten_all_Forall2.
  - destruct (ranked_urls rt (JDict fields)) as [|url urls] eqn:Hr;
      [destruct Hs|].
    destruct Hs as [Hs|[]]. inversion Hs; subst.
    split; [discriminate|]. exists fields, tool_execs.
    repeat split; try assumption. right. repeat split.
    unfold ranked_urls in Hr. now rewrite Hr.
Qed.

Lemma main_csv_contents_witness :
  [JDict [("url", JStr example_url)]] <> [].
Proof.
  refine (proj1 (main_csv_contents (quiet_runtime example_document)
                   "input.json" None "./urls.csv" ["url"]
                   [JDict [("url", JStr example_url)]] _)).
  vm_compute. auto 6.
Defined.

Lemma cot_warnings_app t1 t2 :
  filter is_cot_warning (t1 ++ t2)
  = filter is_cot_warning t1 ++ filter is_cot_warning t2.
Proof. apply filter_app. Qed.

Lemma cot_warnings_write_trace rt folder g :
  filter is_cot_warning (write_trace rt folder g) = [].
Proof.
  unfold write_trace, write_report.
  destruct (write_error rt (path_join folder "extracted_data.json"));
    destruct (flat_tool_execs g) as [|first flats];
    destruct (sorted_urls g) as [|url urls];
    destruct (write_error rt (path_join folder "tool_executions.csv"));
    destruct (write_error rt (path_join folder "urls.csv"));
    reflexivity.
Qed.

Lemma cot_warnings_prepare rt output_folder :
  filter is_cot_warning (fst (prepare_folder rt output_folder)) = [].
Proof.
  destruct output_folder as [folder|]; simpl; [|reflexivity].
  destruct (path_exists rt folder); [reflexivity|].
  unfold bind, emit, raise, ret.
  now destruct (makedirs_error rt folder).
Qed.

(** X10: a non-empty mapping document without the field [chain_of_thought] is
    processed to the end with no tool execution, and the warning about
    the missing field is printed twice, because [main] looks the chain up
    once itself and once more through [extract_tool_executions]. *)
Theorem main_warns_twice_without_chain :
  forall (rt : runtime) (input_file : string) (output_folder : option string)
         (fields : list (string * json)),
    folder_ready rt output_folder = true ->
    json_load rt input_file = Loaded (JDict fields) ->
    fields <> [] ->
    has_key "chain_of_thought" fields = false ->
    extract_tool_executions (JDict fields) = ([Print cot_warning], Ok [])
    /\ snd (main rt input_file output_folder) = Ok Completed
    /\ List.length
         (filter is_cot_warning (fst (main rt input_file output_folder)))
       = 2.
Proof.
  intros rt input_file output_folder fields Hf Hl Hne Hk.
  assert (Hte : tool_execs_of fields = Ok []).
  { unfold tool_execs_of, chain_of, dict_get. unfold has_key in Hk.
    destruct (lookup "chain_of_thought" fields); [discriminate|reflexivity]. }
  assert (Hcot : cot_trace fields = [Print cot_warning])
    by (unfold cot_trace; now rewrite Hk).
  assert (Hdone : snd (main rt input_file output_folder) = Ok Completed).
  { assert (Ht : truthy (JDict fields) = true)
      by (destruct fields; [congruence | reflexivity]).
    assert (H := main_past_check rt input_file output_folder _ Hf Hl Ht).
    rewrite gather_dict, Hte in H. simpl in H. apply H. }
  split; [|split; [exact Hdone|]].
  - now rewrite extract_tool_executions_dict, Hte, Hcot.
  - destruct (main_completed _ _ _ Hdone)
      as (tp & tg & g & d & Hp & Hl' & _ & Hg & Hrun).
    rewrite Hl in Hl'. inversion Hl'; subst d.
    rewrite gather_dict, Hte in Hg. simpl flatten_all in Hg.
    cbv iota in Hg. inversion Hg; subst tg. clear Hg.
    assert (Hw := cot_warnings_prepare rt output_folder).
    rewrite Hp in Hw. simpl in Hw.
    rewrite Hrun. simpl fst.
    rewrite !cot_warnings_app, Hw, cot_warnings_write_trace, Hcot.
    unfold no_urls_trace. destruct (is_nil _); reflexivity.
Qed.

Lemma main_warns_twice_without_chain_witness :
  List.length
    (filter is_cot_warning
       (fst (main (quiet_runtime (JDict [("location", JStr "NYC")]))
                  "input.json" None)))
  = 2.
Proof.
  refine (proj2 (proj2 (main_warns_twice_without_chain
                          (quiet_runtime (JDict [("location", JStr "NYC")]))
                          "input.json" None [("location", JStr "NYC")]
                          _ _ _ _)));
    try reflexivity.
  discriminate.
Defined.

(** ** Ill-shaped steps *)

Lemma collect_steps_app good : forall rest tool_execs,
  forallb step_ok good = true ->
  collect_steps (good ++ rest) tool_execs
  = collect_steps rest (tool_execs ++ flat_map records_of_step good).
Proof.
  induction good as [|step good IH]; intros rest tool_execs H; simpl.
  - now rewrite app_nil_r.
  - simpl in H. apply andb_true_iff in H. destruct H as [Hs Hg].
    destruct step as [| | | | |f]; try discriminate.
    simpl. unfold has_key. simpl in Hs.
    destruct (lookup "tool_executions" f) as [[| | | |execs|]|];
      try discriminate; simpl; rewrite (IH _ _ Hg).
    + now rewrite app_assoc.
    + reflexivity.
Qed.

Lemma collect_steps_bad step rest tool_execs :
  bad_step step = true ->
  collect_steps (step :: rest) tool_execs = Raise TypeError.
Proof.
  destruct step as [| | | | |f]; try discriminate; try reflexivity.
  simpl. unfold has_key.
  destruct (lookup "tool_executions" f) as [v|]; [|discriminate].
  destruct v; try discriminate; reflexivity.
Qed.

(** X11: the extraction of tool executions is all or nothing: one step that is
    a number, a boolean or null, or whose [tool_executions] is one of
    these, makes [extract_tool_executions] raise [TypeError], whatever the
    well-formed steps before it have contributed and whatever follows;
    [main] then raises too and writes nothing. *)
Theorem extract_tool_executions_bad_step :
  forall (fields : list (string * json)) (good : list json) (bad : json)
         (rest : list json),
    lookup "chain_of_thought" fields = Some (JList (good ++ bad :: rest)) ->
    forallb step_ok good = true ->
    bad_step bad = true ->
    extract_tool_executions (JDict fields) = ([], Raise TypeError)
    /\ forall rt input_file output_folder,
         folder_ready rt output_folder = true ->
         json_load rt input_file = Loaded (JDict fields) ->
         snd (main rt input_file output_folder) = Raise TypeError
         /\ saves (fst (main rt input_file output_folder)) = [].
Proof.
  intros fields good bad rest Hc Hg Hb.
  assert (Hte : tool_execs_of fields = Raise TypeError).
  { unfold tool_execs_of, chain_of, dict_get. rewrite Hc. simpl.
    rewrite (collect_steps_app _ _ _ Hg). now apply collect_steps_bad. }
  split.
  - rewrite extract_tool_executions_dict, Hte. unfold cot_trace.
    now rewrite (has_key_lookup _ _ _ Hc).
  - intros rt input_file output_folder Hf Hl.
    assert (Ht : truthy (JDict fields) = true)
      by (destruct fields; [discriminate | reflexivity]).
    assert (H := main_past_check rt input_file output_folder _ Hf Hl Ht).
    rewrite gather_dict, Hte in H. exact H.
Qed.

Lemma extract_tool_executions_bad_step_witness :
  extract_tool_executions
    (JDict [("chain_of_thought",
             JList [JDict [("tool_executions", JList [JDict []])];
                    JInt 7; JDict []])])
  = ([], Raise TypeError).
Proof.
  refine (proj1 (extract_tool_executions_bad_step
                   [("chain_of_thought",
                     JList [JDict [("tool_executions", JList [JDict []])];
                            JInt 7; JDict []])]
                   [JDict [("tool_executions", JList [JDict []])]]
                   (JInt 7) [JDict []] _ _ _));
    reflexivity.
Defined.

(** ** More about the ranker *)

Lemma nonincreasing_descending l : nonincreasing l = true -> descending l.
Proof.
  induction l as [|x r IH]; [intros _; exact I|].
  destruct r as [|y r]; intros H.
  - split; [intros z []|exact I].
  - change (((y <=? x) && nonincreasing (y :: r)) = true) in H.
    apply andb_true_iff in H. destruct H as [Hyx Hr].
    apply Nat.leb_le in Hyx. specialize (IH Hr).
    split; [|exact IH].
    destruct IH as [Hy _].
    intros z [<-|Hz]; [exact Hyx|]. specialize (Hy z Hz). lia.
Qed.

Lemma descending_app a b :
  descending a -> descending b ->
  (forall x y, In x a -> In y b -> y <= x) ->
  descending (a ++ b).
Proof.
  induction a as [|x a IH]; intros Ha Hb Hab; [exact Hb|].
  destruct Ha as [Hx Ha]. simpl. split.
  - intros y Hy. apply in_app_or in Hy. destruct Hy as [Hy|Hy].
    + now apply Hx.
    + apply (Hab x y); [now left | exact Hy].
  - apply IH; [exact Ha | exact Hb|].
    intros x' y Hx' Hy. apply Hab; [now right | exact Hy].
Qed.

Lemma descending_constant k l : (forall x, In x l -> x = k) -> descending l.
Proof.
  induction l as [|x l IH]; intros H; [exact I|]. split.
  - intros y Hy. rewrite (H x), (H y); [lia | now right | now left].
  - apply IH. intros y Hy. apply H. now right.
Qed.

Section RankedLists.

Variable sc : string -> nat.

Lemma groups_scores_descending urls keys :
  descending keys -> descending (map sc (groups sc urls keys)).
Proof.
  induction keys as [|k keys IH]; intros Hd; [exact I|].
  destruct Hd as [Hk Hd].
  change (groups sc urls (k :: keys))
    with (filter (fun u => k =? sc u) urls ++ groups sc urls keys).
  rewrite map_app. apply descending_app.
  - apply (descending_constant k). intros x Hx.
    apply in_map_iff in Hx. destruct Hx as (u & <- & Hu).
    apply filter_In in Hu. destruct Hu as [_ E].
    apply Nat.eqb_eq in E. now symmetry.
  - now apply IH.
  - intros x y Hx Hy.
    apply in_map_iff in Hx. destruct Hx as (u & <- & Hu).
    apply filter_In in Hu. destruct Hu as [_ E]. apply Nat.eqb_eq in E.
    apply in_map_iff in Hy. destruct Hy as (v & <- & Hv).
    apply groups_member in Hv. destruct Hv as [Hv _].
    rewrite <- E. now apply Hk.
Qed.

Lemma rank_scores_descending urls : descending (map sc (rank sc urls)).
Proof.
  rewrite rank_groups. apply groups_scores_descending.
  apply sorted_reverse_descending.
Qed.

(** Two lists in descending order of score whose groups by score
    coincide are the same list. *)
Lemma stable_order_unique l1 : forall l2,
  descending (map sc l1) -> descending (map sc l2) ->
  (forall k, filter (fun u => sc u =? k) l1 = filter (fun u => sc u =? k) l2) ->
  l1 = l2.
Proof.
  induction l1 as [|x l1 IH]; intros l2 H1 H2 Hf.
  - destruct l2 as [|y l2]; [reflexivity|].
    specialize (Hf (sc y)). simpl in Hf. rewrite Nat.eqb_refl in Hf.
    discriminate.
  - destruct l2 as [|y l2].
    { specialize (Hf (sc x)). simpl in Hf. rewrite Nat.eqb_refl in Hf.
      discriminate. }
    destruct H1 as [Hx H1], H2 as [Hy H2].
    assert (Hxy : sc x <= sc y).
    { assert (Hin : In x (filter (fun u => sc u =? sc x) (y :: l2))).
      { rewrite <- Hf. simpl. rewrite Nat.eqb_refl. now left. }
      apply filter_In in Hin. destruct Hin as [[->|Hin] _]; [lia|].
      apply Hy. now apply in_map. }
    assert (Hyx : sc y <= sc x).
    { assert (Hin : In y (filter (fun u => sc u =? sc y) (x :: l1))).
      { rewrite Hf. simpl. rewrite Nat.eqb_refl. now left. }
      apply filter_In in Hin. destruct Hin as [[->|Hin] _]; [lia|].
      apply Hx. now apply in_map. }
    assert (E : sc x = sc y) by lia.
    assert (Hhead := Hf (sc x)). simpl in Hhead.
    rewrite Nat.eqb_refl, <- E, Nat.eqb_refl in Hhead.
    inversion Hhead as [[Exy Htail]]. subst y. f_equal.
    apply IH; try assumption.
    intros k. specialize (Hf k). simpl in Hf.
    destruct (sc x =? k); [now inversion Hf | exact Hf].
Qed.

Lemma rank_fixed urls : descending (map sc urls) -> rank sc urls = urls.
Proof.
  intros H. apply stable_order_unique.
  - apply rank_scores_descending.
  - exact H.
  - apply rank_stable.
Qed.

End RankedLists.

(** X12: a list of URLs that is already in descending order of score is
    returned as it is. *)
Theorem sort_urls_by_relevance_keeps_ranked :
  forall (urls : list string) (keywords : option (list string)),
    nonincreasing (map (score (keywords_or_default keywords)) urls) = true ->
    sort_urls_by_relevance urls keywords = urls.
Proof.
  intros urls keywords H. rewrite sort_urls_is_rank.
  apply rank_fixed. now apply nonincreasing_descending.
Qed.

Lemma sort_urls_by_relevance_keeps_ranked_witness :
  sort_urls_by_relevance
    ["https://maps.example.com/search"; "http://b/hotels"; "http://a"] None
  = ["https://maps.example.com/search"; "http://b/hotels"; "http://a"].
Proof.
  apply sort_urls_by_relevance_keeps_ranked. reflexivity.
Defined.

(** X13: ranking is idempotent: ranking a ranked list again, with the same
    keywords, changes nothing. *)
Theorem sort_urls_by_relevance_idempotent :
  forall (urls : list string) (keywords : option (list string)),
    sort_urls_by_relevance (sort_urls_by_relevance urls keywords) keywords
    = sort_urls_by_relevance urls keywords.
Proof.
  intros urls keywords. rewrite !sort_urls_is_rank.
  apply rank_fixed, rank_scores_descending.
Qed.

Lemma lower_char_idempotent c : lower_char (lower_char c) = lower_char c.
Proof. each_char c. Qed.

Lemma lower_idempotent s : lower (lower s) = lower s.
Proof.
  induction s as [|c s IH]; simpl; [reflexivity|].
  now rewrite lower_char_idempotent, IH.
Qed.

(** X14: the score of a URL does not depend on the letter case of the URL: a
    URL and its lower-case form have the same score, and so have two URLs
    that differ in case only. *)
Theorem score_ignores_url_case :
  forall (keywords : list string) (url : string),
    score keywords (lower url) = score keywords url
    /\ forall url', lower url' = lower url ->
                    score keywords url' = score keywords url.
Proof.
  intros keywords url. unfold score. split.
  - now rewrite lower_idempotent.
  - intros url' E. now rewrite E.
Qed.

(** ** More about the scan of [findall] *)

Lemma findall_fuel_enough n : forall m s,
  String.length s <= n -> String.length s <= m ->
  findall_fuel n s = findall_fuel m s.
Proof.
  induction n as [|n IH]; intros m s Hn Hm.
  - destruct s; [|simpl in Hn; lia]. now destruct m.
  - destruct s as [|c s]; [now destruct m|].
    destruct m as [|m]; [simpl in Hm; lia|].
    simpl findall_fuel.
    destruct (match_here (String c s)) as [[u rest]|] eqn:Em.
    + f_equal. destruct (match_here_sound _ _ _ Em) as (Es & Hu & _).
      assert (El := f_equal String.length Es).
      rewrite length_append in El.
      assert (String.length u <> 0)
        by (destruct u; [discriminate | simpl; lia]).
      simpl in Hn, Hm, El. apply IH; lia.
    + simpl in Hn, Hm. apply IH; lia.
Qed.

Lemma match_here_space c s : is_space c = true -> match_here (String c s) = None.
Proof. each_char c. Qed.

Lemma ends_run_before_space rest c b :
  ends_run rest = true -> is_space c = true ->
  ends_run (rest ++ String c b) = true.
Proof. destruct rest; simpl; auto. Qed.

Lemma match_here_before_space a c b :
  is_space c = true ->
  match_here (a ++ String c b)
  = match match_here a with
    | Some (u, rest) => Some (u, (rest ++ String c b)%string)
    | None => None
    end.
Proof.
  intros Hc. destruct (match_here a) as [[u rest]|] eqn:Ea.
  - destruct (match_here_sound _ _ _ Ea) as (-> & Hu & Hr).
    rewrite append_assoc. apply match_here_exact; [exact Hu|].
    now apply ends_run_before_space.
  - destruct (match_here (a ++ String c b)) as [[m r]|] eqn:Em;
      [|reflexivity].
    exfalso. destruct (match_here_sound _ _ _ Em) as (Es & Hm & Hr).
    destruct (append_eq_append _ _ _ _ Es) as [(e & E1 & E2)|(e & E1 & E2)].
    + assert (He : ends_run e = true).
      { destruct e as [|x e]; [reflexivity|]. rewrite E2 in Hr. exact Hr. }
      rewrite E1, (match_here_exact _ _ Hm He) in Ea. discriminate.
    + destruct e as [|x e].
      * rewrite append_nil_r in E1. subst m.
        assert (Hx := match_here_exact a EmptyString Hm eq_refl).
        rewrite append_nil_r in Hx. congruence.
      * simpl in E2. inversion E2; subst x.
        apply url_like_nonspace in Hm.
        rewrite E1, all_nonspace_append in Hm. simpl in Hm.
        rewrite Hc in Hm. simpl in Hm. rewrite andb_false_r in Hm.
        discriminate.
Qed.

Lemma findall_fuel_split c b :
  is_space c = true ->
  forall n a N,
    String.length a <= n -> String.length (a ++ String c b) <= N ->
    findall_fuel N (a ++ String c b) = findall_fuel n a ++ findall b.
Proof.
  intros Hc.
  assert (Hb : forall N, S (String.length b) <= N ->
                 findall_fuel N (String c b) = findall b).
  { intros [|N] HN; [lia|]. simpl findall_fuel.
    rewrite (match_here_space _ _ Hc). unfold findall.
    apply findall_fuel_enough; lia. }
  induction n as [|n IH]; intros a N Ha HN.
  - destruct a; [|simpl in Ha; lia]. simpl in HN |- *. now apply Hb.
  - destruct a as [|x a].
    { simpl in HN |- *. now apply Hb. }
    destruct N as [|N]; [simpl in HN; lia|].
    change (String x a ++ String c b)%string
      with (String x (a ++ String c b)) in *.
    simpl findall_fuel.
    change (String x (a ++ String c b))
      with (String x a ++ String c b)%string.
    rewrite (match_here_before_space _ _ _ Hc).
    destruct (match_here (String x a)) as [[u rest]|] eqn:Ea.
    + simpl. f_equal.
      destruct (match_here_sound _ _ _ Ea) as (Es & Hu & _).
      assert (El := f_equal String.length Es).
      rewrite length_append in El.
      assert (String.length u <> 0)
        by (destruct u; [discriminate | simpl; lia]).
      simpl in Ha, HN, El. rewrite length_append in HN.
      apply IH; [lia|]. rewrite length_append. simpl in HN |- *. lia.
    + simpl in Ha, HN. apply IH; [lia | lia].
Qed.

(** X15: whitespace cuts the scan in two: the URLs found in a text that holds
    a whitespace character are those found before it followed by those
    found after it, so texts joined by whitespace never produce a URL
    that spans them nor lose one. *)
Theorem findall_whitespace_split :
  forall (a b : string) (c : ascii),
    is_space c = true ->
    findall (a ++ String c b) = findall a ++ findall b.
Proof.
  intros a b c Hc. unfold findall at 1 2.
  now apply findall_fuel_split.
Qed.

Lemma findall_whitespace_split_witness :
  findall ("see http://a" ++ String " " "and https://b/c")
  = findall "see http://a" ++ findall "and https://b/c".
Proof.
  apply findall_whitespace_split. reflexivity.
Defined.

(** ** More about the serialized cells *)

Lemma printable_append a b : printable (a ++ b) = printable a && printable b.
Proof.
  induction a as [|c a IH]; simpl; [reflexivity|].
  now rewrite IH, andb_assoc.
Qed.

Lemma printable_escape_char c : printable (escape_char c) = true.
Proof. each_char c. Qed.

Lemma printable_escape s : printable (escape s) = true.
Proof.
  induction s as [|c s IH]; simpl; [reflexivity|].
  now rewrite printable_append, printable_escape_char, IH.
Qed.

Lemma printable_encode_str s : printable (encode_str s) = true.
Proof.
  unfold encode_str. simpl.
  now rewrite printable_append, printable_escape.
Qed.

Lemma digit_printable c : is_digit c = true -> printable_char c = true.
Proof. each_char c. Qed.

Lemma printable_digits fuel : forall n acc,
  printable acc = true -> printable (digits_fuel fuel n acc) = true.
Proof.
  induction fuel as [|fuel IH]; intros n acc Ha; simpl; [exact Ha|].
  assert (Hd : printable (String (digit_char (n mod 10)) acc) = true).
  { simpl. rewrite Ha, andb_true_r. apply digit_printable.
    apply digit_char_spec. apply N.mod_lt. lia. }
  destruct (n <? 10)%N; [exact Hd | now apply IH].
Qed.

Lemma printable_repr_int z : printable (repr_int z) = true.
Proof.
  unfold repr_int, repr_N.
  destruct (z <? 0)%Z; [change (printable (String "-" ?s)) with (printable s)|];
    now apply printable_digits.
Qed.

Lemma printable_concat texts :
  Forall (fun text => printable text = true) texts ->
  printable (String.concat ", " texts) = true.
Proof.
  induction texts as [|x [|y texts] IH]; intros H; [reflexivity| |].
  - now inversion H.
  - inversion H as [|? ? Hx Hr]; subst.
    change (String.concat ", " (x :: y :: texts))
      with (x ++ ", " ++ String.concat ", " (y :: texts))%string.
    rewrite !printable_append, Hx, (IH Hr). reflexivity.
Qed.

(** The text written by [json.dumps] holds printable ASCII characters
    only. *)
Lemma dumps_printable v : printable (dumps v) = true.
Proof.
  induction v as [|b|z|s|l IH|f IH] using json_ind.
  - reflexivity.
  - now destruct b.
  - apply printable_repr_int.
  - apply printable_encode_str.
  - change (dumps (JList l))
      with ("[" ++ String.concat ", " (map dumps l) ++ "]")%string.
    rewrite !printable_append, printable_concat; [reflexivity|].
    now apply Forall_map.
  - change (dumps (JDict f))
      with ("{" ++ String.concat ", " (map member_text f) ++ "}")%string.
    rewrite !printable_append, printable_concat; [reflexivity|].
    apply Forall_map. apply Forall_forall. intros [k x] Hin.
    rewrite Forall_forall in IH. specialize (IH (k, x) Hin). simpl in IH.
    unfold member_text.
    now rewrite !printable_append, printable_encode_str, IH.
Qed.

(** X16: whatever text a record holds, the [params] and [output] cells of its
    flattened form consist of printable ASCII characters only: no line
    break, no control character and no character above 126 reaches the
    CSV file through them. *)
Theorem flatten_tool_execution_cells_printable :
  forall fields : list (string * json),
    exists tool_name method_name params_text output_text,
      flatten_tool_execution (JDict fields)
      = Ok (JDict [("tool_name", tool_name);
                   ("method_name", method_name);
                   ("params", JStr params_text);
                   ("output", JStr output_text)])
      /\ printable params_text = true
      /\ printable output_text = true.
Proof.
  intros fields. do 4 eexists. split; [reflexivity|].
  split; apply dumps_printable.
Qed.




(** ** The extractor and the ranker together *)

(** X18: the ranked list that goes into the report and into [urls.csv] has no
    duplicate and holds exactly the URLs that the traversal of the
    document has found. *)
Theorem ranked_urls_are_the_found_urls :
  forall (rt : runtime) (json_data : json) (keywords : option (list string)),
    set_order_ok rt (search json_data) = true ->
    NoDup (sort_urls_by_relevance (extract_urls rt json_data) keywords)
    /\ forall u,
         In u (sort_urls_by_relevance (extract_urls rt json_data) keywords)
         <-> In u (search json_data).
Proof.
  intros rt json_data keywords Hok.
  unfold set_order_ok in Hok. apply lists_set_spec in Hok.
  destruct Hok as [Hnd Hmem].
  rewrite sort_urls_is_rank.
  assert (P := rank_perm (score (keywords_or_default keywords))
                 (extract_urls rt json_data)).
  split.
  - apply (Permutation_NoDup (Permutation_sym P)). exact Hnd.
  - intros u. rewrite <- (Hmem u). split.
    + apply (Permutation_in _ P).
    + apply (Permutation_in _ (Permutation_sym P)).
Qed.

Lemma ranked_urls_are_the_found_urls_witness :
  NoDup (sort_urls_by_relevance
           (extract_urls
              (quiet_runtime (JList [JStr "http://a http://maps";
                                     JStr "http://a"]))
              (JList [JStr "http://a http://maps"; JStr "http://a"]))
           None).
Proof.
  refine (proj1 (ranked_urls_are_the_found_urls
                   (quiet_runtime (JList [JStr "http://a http://maps";
                                          JStr "http://a"]))
                   (JList [JStr "http://a http://maps"; JStr "http://a"])
                   None _)).
  reflexivity.
Defined.

Lemma collect_steps_chars s tool_execs :
  collect_steps (chars s) tool_execs = Ok tool_execs.
Proof.
  induction s as [|c s IH]; [reflexivity|].
  simpl chars.
  change (collect_steps (JStr (String c EmptyString) :: chars s) tool_execs)
    with (if str_contains "tool_executions" (String c EmptyString)
          then rbind (py_getitem (JStr (String c EmptyString))
                                 "tool_executions")
                     (fun execs =>
                        rbind (py_iter execs) (fun exec_items =>
                        collect_steps (chars s) (tool_execs ++ exec_items)))
          else collect_steps (chars s) tool_execs).
  replace (str_contains "tool_executions" (String c EmptyString)) with false;
    [exact IH|].
  each_char c.
Qed.

(** X19: a chain of thought that is a string, not a sequence, is accepted
    without any message: the loop runs over its characters, none of which
    contains [tool_executions], and the result is the empty list. *)
Theorem extract_tool_executions_string_chain :
  forall (fields : list (string * json)) (s : string),
    lookup "chain_of_thought" fields = Some (JStr s) ->
    extract_tool_executions (JDict fields) = ([], Ok []).
Proof.
  intros fields s Hc.
  rewrite extract_tool_executions_dict. unfold cot_trace, tool_execs_of.
  rewrite (has_key_lookup _ _ _ Hc).
  unfold chain_of, dict_get. rewrite Hc. simpl.
  now rewrite collect_steps_chars.
Qed.

Lemma extract_tool_executions_string_chain_witness :
  extract_tool_executions
    (JDict [("chain_of_thought", JStr "tool_executions: none")])
  = ([], Ok []).
Proof.
  apply (extract_tool_executions_string_chain
           [("chain_of_thought", JStr "tool_executions: none")]
           "tool_executions: none").
  reflexivity.
Defined.
